(** * Insertion-event detection in TIRF stacks: [detect_insertions_slow]

    A shallow embedding of [src/detect_insertion_events.py] and the
    properties of its detection core.

    Conventions of the embedding.
    - A numpy array is its shape together with its indexing function;
      every read of the program that can go out of range goes through a
      [getitem] that raises [IndexError] as Python does.
    - Samples are integers of a numpy [dtype]; elementwise subtraction
      wraps as numpy's does ([uint16] stacks are what a TIFF usually holds).
    - [np.mean], [np.std] and the product [threshold * bg_std] are read
      over the rationals and the reals, not over binary64: a value of
      [npfloat] is [NaN] or the real number [k * sqrt v].  Rounding is not
      modelled; a finite Python float is a rational, infinities are left
      out.
    - [scipy.ndimage.label] is library code.  It is modelled from its
      documented contract: with no [structure] argument the structuring
      element is the cross [[0,1,0],[1,1,1],[0,1,0]] (connectivity one),
      features are numbered from 1 in raster order of their first cell,
      and an input of size zero has no feature. *)

From Stdlib Require Import List ZArith QArith Qround Lia Bool Arith Sorting.Sorted.
From Stdlib Require Import Reals Lra Qreals FinFun.
From Stdlib Require String Ascii DecimalString.
Import ListNotations.

Set Implicit Arguments.
Open Scope nat_scope.

(** ** Exceptions *)

Inductive exn : Type :=
| IndexError.

Inductive result (A : Type) : Type :=
| Ok (a : A)
| Raise (e : exn).

Arguments Ok {A} a.
Arguments Raise {A} e.

Definition bind {A B : Type} (r : result A) (k : A -> result B) : result B :=
  match r with
  | Ok a => k a
  | Raise e => Raise e
  end.

Notation "x <- r ;; k" := (bind r (fun x => k))
  (at level 61, r at next level, right associativity).

(** What a run hands to its caller: the list it returns, nothing when it
    raises. *)
Definition produced {A : Type} (r : result (list A)) : list A :=
  match r with
  | Ok l => l
  | Raise _ => []
  end.

(** ** Arrays *)

Module Np.

(** The integer dtypes of numpy, and [float64] holding integer samples. *)
Inductive dtype : Type :=
| uint8 | uint16 | uint32 | uint64
| int8 | int16 | int32 | int64
| float64.

Definition bits (dt : dtype) : Z :=
  match dt with
  | uint8 | int8 => 8
  | uint16 | int16 => 16
  | uint32 | int32 => 32
  | uint64 | int64 | float64 => 64
  end.

(** The value an integer [z] takes when stored in dtype [dt]. *)
Definition wrap (dt : dtype) (z : Z) : Z :=
  match dt with
  | uint8 | uint16 | uint32 | uint64 => z mod 2 ^ bits dt
  | int8 | int16 | int32 | int64 =>
      (z + 2 ^ (bits dt - 1)) mod 2 ^ bits dt - 2 ^ (bits dt - 1)
  | float64 => z
  end.

(** A 2-D array: [(rows, columns)] and the cell at [(y, x)]. *)
Record ndarray2 (A : Type) : Type := mk2 {
  shape2 : nat * nat;
  data2 : nat -> nat -> A
}.

(** A 3-D array of samples: [(T, Y, X)] and the sample at [(t, y, x)]. *)
Record ndarray3 : Type := mk3 {
  dt3 : dtype;
  shape3 : nat * nat * nat;
  data3 : nat -> nat -> nat -> Z
}.

Definition cell : Type := (nat * nat)%type.

(** The cells of a [Y]x[X] grid in row-major (C) order. *)
Definition all_cells (Y X : nat) : list cell :=
  flat_map (fun y => map (fun x => (y, x)) (seq 0 X)) (seq 0 Y).

Definition cells2 {A} (a : ndarray2 A) : list cell :=
  all_cells (fst (shape2 a)) (snd (shape2 a)).

Definition at2 {A} (a : ndarray2 A) (c : cell) : A :=
  data2 a (fst c) (snd c).

(** Python's index normalisation along an axis of length [n]. *)
Definition norm_index (n : nat) (i : Z) : result nat :=
  if (0 <=? i)%Z && (i <? Z.of_nat n)%Z then Ok (Z.to_nat i)
  else if (- Z.of_nat n <=? i)%Z && (i <? 0)%Z then Ok (Z.to_nat (i + Z.of_nat n))
  else Raise IndexError.

(** [stack[t]]. *)
Definition getitem3 (s : ndarray3) (t : Z) : result (ndarray2 Z) :=
  let '(T, Y, X) := shape3 s in
  t' <- norm_index T t ;;
  Ok (mk2 (Y, X) (data3 s t')).

(** [a[y, x]]. *)
Definition getitem2 {A} (a : ndarray2 A) (y x : Z) : result A :=
  y' <- norm_index (fst (shape2 a)) y ;;
  x' <- norm_index (snd (shape2 a)) x ;;
  Ok (data2 a y' x').

(** [a - b] on two arrays of one shape and dtype [dt]: the case of numpy's
    subtraction that the detector reaches, the two operands being frames
    of one stack ([subtract] below is the operation on any two arrays). *)
Definition sub (dt : dtype) (a b : ndarray2 Z) : ndarray2 Z :=
  mk2 (shape2 a) (fun y x => wrap dt (data2 a y x - data2 b y x)).

(** The flattened samples of an array, in C order. *)
Definition ravel {A} (a : ndarray2 A) : list A :=
  map (at2 a) (cells2 a).

(** Values [k * sqrt v] with [0 <= v], and the not-a-number. *)
Inductive npfloat : Type :=
| NaN
| Rad (k v : Q).

Definition of_Q (q : Q) : npfloat := Rad q 1%Q.

Definition Qsum (l : list Q) : Q := fold_right Qplus 0%Q l.

Definition Qlen {A} (l : list A) : Q := inject_Z (Z.of_nat (length l)).

(** The mean of a list of rationals; the caller rules out the empty list. *)
Definition Qmean (l : list Q) : Q := Qsum l / Qlen l.

(** [np.mean] of integer data: [NaN] on an empty array. *)
Definition mean (l : list Z) : npfloat :=
  match l with
  | [] => NaN
  | _ => of_Q (Qmean (map inject_Z l))
  end.

(** The population variance, as numpy computes it: the mean of the squared
    deviations from the mean. *)
Definition Qvar (l : list Z) : Q :=
  let m := Qmean (map inject_Z l) in
  Qmean (map (fun z => ((inject_Z z - m) * (inject_Z z - m))%Q) l).

(** [np.std] of integer data (ddof = 0): [NaN] on an empty array. *)
Definition std (l : list Z) : npfloat :=
  match l with
  | [] => NaN
  | _ => Rad 1%Q (Qvar l)
  end.

(** [a * f] for a Python float [a]. *)
Definition mul (a : Q) (f : npfloat) : npfloat :=
  match f with
  | NaN => NaN
  | Rad k v => Rad (a * k)%Q v
  end.

Definition Qltb (a b : Q) : bool := negb (Qle_bool b a).

(** [d > f] for an integer sample [d]: a comparison with [NaN] is false;
    [d > k * sqrt v] is decided on the signs and the squares ([gt_spec]
    below relates it to the order of the reals). *)
Definition gt (d : Z) (f : npfloat) : bool :=
  match f with
  | NaN => false
  | Rad k v =>
      let d2 := inject_Z (d * d) in
      let b2 := (k * k * v)%Q in
      if Qle_bool 0%Q k then (0 <? d)%Z && Qltb b2 d2
      else (0 <? d)%Z || Qltb d2 b2
  end.

(** [diff > bound], elementwise. *)
Definition gt2 (a : ndarray2 Z) (f : npfloat) : ndarray2 bool :=
  mk2 (shape2 a) (fun y x => gt (data2 a y x) f).

(** [labeled == i], elementwise. *)
Definition eq2 (a : ndarray2 nat) (i : nat) : ndarray2 bool :=
  mk2 (shape2 a) (fun y x => Nat.eqb (data2 a y x) i).

(** [np.where(mask)]: the row indices and the column indices of the true
    cells, in C order. *)
Definition where_ (m : ndarray2 bool) : list nat * list nat :=
  let cs := filter (at2 m) (cells2 m) in
  (map fst cs, map snd cs).

(** [int(f)] for a finite float: truncation toward zero. *)
Definition py_int (q : Q) : Z := Z.quot (Qnum q) (Zpos (Qden q)).

(** [int(np.mean(idx))] for a non-empty index array. *)
Definition int_mean (idx : list nat) : Z :=
  py_int (Qmean (map (fun i => inject_Z (Z.of_nat i)) idx)).

End Np.

(** ** Connected-component labelling *)

Module Ndimage.
Import Np.

Definition cell_eqb (c d : cell) : bool :=
  Nat.eqb (fst c) (fst d) && Nat.eqb (snd c) (snd d).

Definition mem (c : cell) (l : list cell) : bool := existsb (cell_eqb c) l.

(** Two cells joined by the default structuring element: they share an
    edge. *)
Definition adjacent (c d : cell) : bool :=
  Nat.eqb (fst c) (fst d) && (Nat.eqb (snd c) (S (snd d)) || Nat.eqb (snd d) (S (snd c)))
  || Nat.eqb (snd c) (snd d) && (Nat.eqb (fst c) (S (fst d)) || Nat.eqb (fst d) (S (fst c))).

(** One round of growth: the foreground cells next to [comp] join it. *)
Definition grow (fg comp : list cell) : list cell :=
  comp ++ filter (fun c => negb (mem c comp) && existsb (adjacent c) comp) fg.

Fixpoint flood (fuel : nat) (fg comp : list cell) : list cell :=
  match fuel with
  | O => comp
  | S fuel' => flood fuel' fg (grow fg comp)
  end.

(** The feature of the foreground [fg] that holds [seed]. *)
Definition feature (fg : list cell) (seed : cell) : list cell :=
  flood (length fg) fg [seed].

(** Raster scan: a foreground cell no earlier feature holds starts the
    next feature. *)
Fixpoint scan (fg todo : list cell) (found : list (list cell)) : list (list cell) :=
  match todo with
  | [] => found
  | c :: todo' =>
      if existsb (mem c) found then scan fg todo' found
      else scan fg todo' (found ++ [feature fg c])
  end.

(** The true cells of the input, in raster order. *)
Definition foreground (input : ndarray2 bool) : list cell :=
  filter (at2 input) (cells2 input).

Definition features (input : ndarray2 bool) : list (list cell) :=
  let fg := foreground input in
  scan fg fg [].

(** The number of the first feature that holds [c], counting from [i];
    0 for the background. *)
Fixpoint label_of (c : cell) (found : list (list cell)) (i : nat) : nat :=
  match found with
  | [] => 0
  | f :: found' => if mem c f then i else label_of c found' (S i)
  end.

(** [ndimage.label(input)]: the labelled array and the number of
    features. *)
Definition label (input : ndarray2 bool) : ndarray2 nat * nat :=
  let fs := features input in
  (mk2 (shape2 input) (fun y x => label_of (y, x) fs 1), length fs).

End Ndimage.

(** ** The detector *)

(** One detection: the dict with keys 'frame', 'y', 'x', 'intensity'. *)
Record Event : Type := mkEvent {
  frame : nat;
  y : Z;
  x : Z;
  intensity : Z
}.

(** [for a in l: body], threading the loop state and stopping at the first
    exception. *)
Fixpoint for_each {A S : Type} (l : list A) (body : A -> S -> result S) (s : S)
  : result S :=
  match l with
  | [] => Ok s
  | a :: l' => s' <- body a s ;; for_each l' body s'
  end.

(** [range(a, b)]. *)
Definition range (a b : nat) : list nat := seq a (b - a).

(** The body of the loop over the labels [i] of one difference image. *)
Definition extract (t : nat) (diff : Np.ndarray2 Z) (labeled : Np.ndarray2 nat)
  (i : nat) (events : list Event) : result (list Event) :=
  let mask := Np.eq2 labeled i in
  let '(y, x) := Np.where_ mask in
  if Nat.eqb (length y) 0 then Ok events
  else
    let cy := Np.int_mean y in
    let cx := Np.int_mean x in
    v <- Np.getitem2 diff cy cx ;;
    Ok (events ++ [mkEvent t cy cx v]).

(** The body of the loop over the frames [t]. *)
Definition step (stack : Np.ndarray3) (threshold : Q) (bg_std : Np.npfloat)
  (t : nat) (events : list Event) : result (list Event) :=
  curr <- Np.getitem3 stack (Z.of_nat t) ;;
  prev <- Np.getitem3 stack (Z.of_nat t - 1) ;;
  let diff := Np.sub (Np.dt3 stack) curr prev in
  let candidates := Np.gt2 diff (Np.mul threshold bg_std) in
  let '(labeled, num_features) := Ndimage.label candidates in
  for_each (range 1 (num_features + 1)) (extract t diff labeled) events.

(** [detect_insertions_slow(stack, threshold, min_distance)]: the body
    never reads [min_distance]. *)
Definition detect_insertions_slow (stack : Np.ndarray3) (threshold : Q)
  (min_distance : Z) : result (list Event) :=
  let '(T, Y, X) := Np.shape3 stack in
  frame0 <- Np.getitem3 stack 0 ;;
  let bg_mean := Np.mean (Np.ravel frame0) in
  frame0 <- Np.getitem3 stack 0 ;;
  let bg_std := Np.std (Np.ravel frame0) in
  for_each (range 1 T) (step stack threshold bg_std) [].

(** ** The run as a pure function

    What the loops compute when no read goes out of range; the lemmas
    below show that none does. *)

Definition T (stack : Np.ndarray3) : nat := fst (fst (Np.shape3 stack)).
Definition Y (stack : Np.ndarray3) : nat := snd (fst (Np.shape3 stack)).
Definition X (stack : Np.ndarray3) : nat := snd (Np.shape3 stack).

(** [stack[t]] for [t] in range. *)
Definition frame_at (stack : Np.ndarray3) (t : nat) : Np.ndarray2 Z :=
  Np.mk2 (Y stack, X stack) (Np.data3 stack t).

Definition bg_std_of (stack : Np.ndarray3) : Np.npfloat :=
  Np.std (Np.ravel (frame_at stack 0)).

Definition diff_at (stack : Np.ndarray3) (t : nat) : Np.ndarray2 Z :=
  Np.sub (Np.dt3 stack) (frame_at stack t) (frame_at stack (t - 1)).

Definition candidates_at (stack : Np.ndarray3) (threshold : Q) (t : nat)
  : Np.ndarray2 bool :=
  Np.gt2 (diff_at stack t) (Np.mul threshold (bg_std_of stack)).

Definition labeled_at (stack : Np.ndarray3) (threshold : Q) (t : nat)
  : Np.ndarray2 nat :=
  fst (Ndimage.label (candidates_at stack threshold t)).

Definition num_features_at (stack : Np.ndarray3) (threshold : Q) (t : nat) : nat :=
  snd (Ndimage.label (candidates_at stack threshold t)).

(** The cells that carry label [i], in raster order. *)
Definition component (labeled : Np.ndarray2 nat) (i : nat) : list Np.cell :=
  filter (Np.at2 (Np.eq2 labeled i)) (Np.cells2 (Np.eq2 labeled i)).

Definition event_of (t : nat) (diff : Np.ndarray2 Z) (comp : list Np.cell) : Event :=
  let cy := Np.int_mean (map fst comp) in
  let cx := Np.int_mean (map snd comp) in
  mkEvent t cy cx (Np.data2 diff (Z.to_nat cy) (Z.to_nat cx)).

Definition label_events (t : nat) (diff : Np.ndarray2 Z) (labeled : Np.ndarray2 nat)
  (i : nat) : list Event :=
  match component labeled i with
  | [] => []
  | comp => [event_of t diff comp]
  end.

Definition frame_events (stack : Np.ndarray3) (threshold : Q) (t : nat) : list Event :=
  flat_map (label_events t (diff_at stack t) (labeled_at stack threshold t))
           (range 1 (num_features_at stack threshold t + 1)).

(** ** Notions of the specification *)

(** Two cells are linked when a chain of foreground cells, each next to
    the one before under [adj], leads from one to the other. *)
Inductive linked (adj : Np.cell -> Np.cell -> bool) (fg : list Np.cell)
  : Np.cell -> Np.cell -> Prop :=
| linked_refl c : In c fg -> linked adj fg c c
| linked_step c d e :
    linked adj fg c d -> In e fg -> adj d e = true -> linked adj fg c e.

(** A set of cells that no foreground cell touches from outside. *)
Definition closed (fg comp : list Np.cell) : Prop :=
  forall c d, In c comp -> In d fg -> Ndimage.adjacent d c = true -> In d comp.

(** What the growth of a feature keeps true. *)
Definition fill_inv (fg : list Np.cell) (seed : Np.cell) (comp : list Np.cell) : Prop :=
  NoDup comp /\ incl comp fg
  /\ forall c, In c comp -> linked Ndimage.adjacent fg seed c.

(** The lists of features the raster scan goes through: each new feature
    starts from a foreground cell that no earlier feature holds. *)
Inductive built (fg : list Np.cell) : list (list Np.cell) -> Prop :=
| built_nil : built fg []
| built_snoc found seed :
    built fg found -> In seed fg -> existsb (Ndimage.mem seed) found = false ->
    built fg (found ++ [Ndimage.feature fg seed]).

(** [found] holds [c] first at position [i]. *)
Definition first_at (c : Np.cell) (found : list (list Np.cell)) (i : nat) : Prop :=
  i < length found /\ In c (nth i found []) /\ forall j, j < i -> ~ In c (nth j found []).

(** Cells that touch at a corner only. *)
Definition diagonal (c d : Np.cell) : bool :=
  (Nat.eqb (fst c) (S (fst d)) || Nat.eqb (fst d) (S (fst c)))
  && (Nat.eqb (snd c) (S (snd d)) || Nat.eqb (snd d) (S (snd c))).

(** The neighbourhood of 8-connectivity. *)
Definition adjacent8 (c d : Np.cell) : bool :=
  Ndimage.adjacent c d || diagonal c d.

Definition Zsum (l : list nat) : Z := fold_right (fun i a => (Z.of_nat i + a)%Z) 0%Z l.

(** The arithmetic mean of a list of indices, truncated toward zero. *)
Definition trunc_mean (l : list nat) : Z := Z.quot (Zsum l) (Z.of_nat (length l)).

(** The Event the specification asks for a component: the truncated means
    of its rows and of its columns, and the difference image read there. *)
Definition centroid_event (t : nat) (diff : Np.ndarray2 Z) (comp : list Np.cell) : Event :=
  let cy := trunc_mean (map fst comp) in
  let cx := trunc_mean (map snd comp) in
  mkEvent t cy cx (Np.at2 diff (Z.to_nat cy, Z.to_nat cx)).

(** Every frame of the stack equals the frame before it. *)
Definition static (stack : Np.ndarray3) : Prop :=
  forall t y x, 1 <= t < T stack -> y < Y stack -> x < X stack ->
    Np.data3 stack t y x = Np.data3 stack (t - 1) y x.

(** The real number a [npfloat] stands for. *)
Definition toR (k v : Q) : R := (Q2R k * sqrt (Q2R v))%R.

(** ** Concrete stacks *)

(** The array whose frames are the given lists of rows. *)
Definition of_rows (dt : Np.dtype) (T Y X : nat) (frames : list (list (list Z)))
  : Np.ndarray3 :=
  Np.mk3 dt (T, Y, X) (fun t y x => nth x (nth y (nth t frames []) []) 0%Z).

Definition zeros5 : list (list Z) := repeat (repeat 0%Z 5) 5.

Definition spot5 : list (list Z) :=
  [ [0;0;0;0;0]; [0;0;0;0;0]; [0;0;100;0;0]; [0;0;0;0;0]; [0;0;0;0;0] ]%Z.

Definition scenario_A (dt : Np.dtype) : Np.ndarray3 :=
  of_rows dt 3 5 5 [zeros5; zeros5; spot5].


(** One frame pair whose difference has two bright cells on either side of
    a dimmer one; the first frame has mean 1 and standard deviation 1. *)
Definition ridge : Np.ndarray3 :=
  of_rows Np.uint8 2 1 4 [ [[0;2;0;2]]; [[10;7;10;2]] ]%Z.

(** One frame pair whose difference has two cells touching at a corner. *)
Definition corners : Np.ndarray3 :=
  of_rows Np.uint8 2 2 2 [ [[0;0];[0;0]]; [[9;0];[0;9]] ]%Z.

(** Three equal frames. *)
Definition still : Np.ndarray3 :=
  of_rows Np.uint8 3 1 2 [ [[3;5]]; [[3;5]]; [[3;5]] ]%Z.

(** One frame pair whose difference is bright on a horseshoe around the
    dark cell (0, 1). *)
Definition horseshoe : Np.ndarray3 :=
  of_rows Np.uint8 2 2 3 [ [[0;0;0];[0;0;0]]; [[9;0;9];[9;9;9]] ]%Z.

(** A stack with no frame, and a stack of frames with no row. *)
Definition no_frame : Np.ndarray3 := of_rows Np.uint16 0 2 2 [].
Definition no_pixel : Np.ndarray3 := of_rows Np.uint16 2 0 5 [ []; [] ].

(** ** The Change Detector on two arbitrary frames

    [curr - prev] as numpy evaluates it on any two 2-D arrays: along each
    axis two equal lengths are matched, a length of 1 is stretched to the
    other length, and any other pair of lengths raises ValueError
    ("operands could not be broadcast together"), here [None].  [Np.sub] is
    the case the detector reaches, two frames of one stack. *)

(** The length of an axis of the result. *)
Definition broadcast_axis (n m : nat) : option nat :=
  if Nat.eqb n m then Some n
  else if Nat.eqb n 1 then Some m
  else if Nat.eqb m 1 then Some n
  else None.

Definition broadcast_shape (s1 s2 : nat * nat) : option (nat * nat) :=
  match broadcast_axis (fst s1) (fst s2), broadcast_axis (snd s1) (snd s2) with
  | Some r, Some c => Some (r, c)
  | _, _ => None
  end.

(** The index read along an axis of length [n] for the index [i] of the
    result. *)
Definition stretch (n i : nat) : nat := if Nat.eqb n 1 then 0 else i.

(** [a - b] for arrays of dtype [dt]. *)
Definition subtract (dt : Np.dtype) (a b : Np.ndarray2 Z) : option (Np.ndarray2 Z) :=
  match broadcast_shape (Np.shape2 a) (Np.shape2 b) with
  | Some s =>
      Some (Np.mk2 s (fun y x =>
              Np.wrap dt
                (Np.data2 a (stretch (fst (Np.shape2 a)) y) (stretch (snd (Np.shape2 a)) x)
                 - Np.data2 b (stretch (fst (Np.shape2 b)) y) (stretch (snd (Np.shape2 b)) x))))
  | None => None
  end.

(** The difference image and the candidate mask of two frames. *)
Definition change_detector (dt : Np.dtype) (prev curr : Np.ndarray2 Z)
  (threshold : Q) (bg_std : Np.npfloat) : option (Np.ndarray2 Z * Np.ndarray2 bool) :=
  match subtract dt curr prev with
  | Some diff => Some (diff, Np.gt2 diff (Np.mul threshold bg_std))
  | None => None
  end.



(** Frames of two and of three columns. *)
Definition two_columns : Np.ndarray2 Z := Np.mk2 (1, 2) (fun _ _ => 0%Z).
Definition three_columns : Np.ndarray2 Z := Np.mk2 (1, 3) (fun _ _ => 0%Z).

(** ** Notions of the further properties *)

(** The first [n] frames of a stack: [stack[:n]] for [n <= T]. *)
Definition truncate (n : nat) (stack : Np.ndarray3) : Np.ndarray3 :=
  Np.mk3 (Np.dt3 stack) (n, Y stack, X stack) (Np.data3 stack).

(** Two stacks hold the same samples in frame [t]. *)
Definition same_frame (stack stack' : Np.ndarray3) (t : nat) : Prop :=
  forall y x, y < Y stack -> x < X stack ->
    Np.data3 stack t y x = Np.data3 stack' t y x.

(** The reference frame holds one value everywhere. *)
Definition flat_reference (stack : Np.ndarray3) (v : Z) : Prop :=
  forall y x, y < Y stack -> x < X stack -> Np.data3 stack 0 y x = v.

(** The values a sample of an integer dtype can take. *)
Definition in_dtype (dt : Np.dtype) (z : Z) : Prop :=
  match dt with
  | Np.uint8 | Np.uint16 | Np.uint32 | Np.uint64 => (0 <= z < 2 ^ Np.bits dt)%Z
  | Np.int8 | Np.int16 | Np.int32 | Np.int64 =>
      (- 2 ^ (Np.bits dt - 1) <= z < 2 ^ (Np.bits dt - 1))%Z
  | Np.float64 => True
  end.

Definition unsigned (dt : Np.dtype) : bool :=
  match dt with
  | Np.uint8 | Np.uint16 | Np.uint32 | Np.uint64 => true
  | _ => false
  end.

(** A candidate cell with no candidate next to it. *)
Definition isolated (fg : list Np.cell) (c : Np.cell) : Prop :=
  In c fg /\ forall d, In d fg -> Ndimage.adjacent c d = false.

(** A single frame. *)
Definition one_frame : Np.ndarray3 := of_rows Np.uint16 1 1 2 [ [[7;9]] ]%Z.

(** A pixel that dims from 5 to 3 over a flat reference frame. *)
Definition dimming : Np.ndarray3 :=
  of_rows Np.uint8 2 1 2 [ [[5;5]]; [[3;5]] ]%Z.
(** [ridge] followed by a third frame. *)
Definition ridge_longer : Np.ndarray3 :=
  of_rows Np.uint8 3 1 4 [ [[0;2;0;2]]; [[10;7;10;2]]; [[0;0;0;0]] ]%Z.
(** The raster (row-major) order of the cells. *)
Definition raster_lt (c d : Np.cell) : Prop :=
  fst c < fst d \/ (fst c = fst d /\ snd c < snd d).

(** Every feature has a cell that comes before each cell of the features
    found after it. *)
Definition earlier (found : list (list Np.cell)) : Prop :=
  forall i j, i < j < length found ->
    forall d, In d (nth j found []) ->
      exists c, In c (nth i found []) /\ raster_lt c d.

(** Two candidate cells well apart and a third one in between, over a flat
    frame. *)
Definition spikes : Np.ndarray3 :=
  of_rows Np.uint16 2 2 3 [ [[0;0;0];[0;0;0]]; [[50;0;0];[0;0;50]] ]%Z.

(** ** The script around the detector

    [load_tiff_stack], [save_events_to_csv] and [main] act on the file
    system and the standard output.  A file is modelled by what the
    libraries make of it: a TIFF file by the 3-D array [tifffile] reads
    from it, the file [DataFrame.to_csv] writes by the columns and rows of
    the frame.  The command line is taken as parsed. *)

Module Script.
Import String.StringSyntax.
Local Open Scope string_scope.
Local Infix "+++" := String.append (at level 60, right associativity).

Definition path : Type := String.string.

(** [Tiff stack] is a file that [tifffile.imread] reads as the 3-D array
    [stack] of numbers: a TIFF file of several grey-scale pages.  [Other] is
    a file that [tifffile] refuses.  A TIFF file that is read as an array of
    another kind (a single page gives a 2-D array, colour pages a 4-D one,
    bilevel pages an array of booleans) is none of the three: a file system
    that holds one is outside the model. *)
Inductive file : Type :=
| Tiff (stack : Np.ndarray3)
| Csv (columns : list String.string) (rows : list Event)
| Other.

(** What writing a file at a path comes to: the file is created or replaced
    and written in full; or [open] raises (the directory is missing or not
    writable, or the path is a directory) and nothing is touched; or the
    file is opened, hence created or emptied, and a later write raises (the
    device has no room left), which leaves a file that is cut short. *)
Inductive writing : Type :=
| Completes
| Refused
| Interrupted.

Record world : Type := mkWorld {
  files : path -> option file;
  writing_at : path -> writing;
  stdout : list String.string
}.

(** How a call ends when it does not return. *)
Inductive raised : Type :=
| SystemExit (message : String.string)
| Uncaught (e : exn)
| FileNotFoundError
| TiffFileError
| OSError.

Definition io (A : Type) : Type := world -> (raised + A) * world.

Definition ret {A : Type} (a : A) : io A := fun w => (inr a, w).

Definition raise {A : Type} (r : raised) : io A := fun w => (inl r, w).

Definition and_then {A B : Type} (m : io A) (k : A -> io B) : io B :=
  fun w =>
    match m w with
    | (inl r, w') => (inl r, w')
    | (inr a, w') => k a w'
    end.

Local Notation "x <~ m ;; k" := (and_then m (fun x => k))
  (at level 61, m at next level, right associativity).

(** An exception of the detector leaves the call that made it. *)
Definition lift {A : Type} (r : result A) : io A :=
  match r with
  | Ok a => ret a
  | Raise e => raise (Uncaught e)
  end.

(** [print(line)]. *)
Definition print (line : String.string) : io unit :=
  fun w => (inr tt, mkWorld (files w) (writing_at w) (stdout w ++ [line])).

(** [os.path.exists(p)]. *)
Definition os_path_exists (p : path) : io bool :=
  fun w => (inr (match files w p with Some _ => true | None => false end), w).

(** The decimal digits of a number, as an f-string prints it. *)
Definition dec (n : nat) : String.string :=
  DecimalString.NilZero.string_of_uint (Nat.to_uint n).

(** [f"{stack.shape}"]. *)
Definition shape_str (shape : nat * nat * nat) : String.string :=
  let '(T, Y, X) := shape in
  "(" +++ dec T +++ ", " +++ dec Y +++ ", " +++ dec X +++ ")".

Definition load_tiff_stack (filepath : path) : io Np.ndarray3 :=
  fun w =>
    match files w filepath with
    | Some (Tiff stack) => (inr stack, w)
    | Some _ => (inl TiffFileError, w)
    | None => (inl FileNotFoundError, w)
    end.

(** [pd.DataFrame(events)]: one row for each dict, the columns being the
    keys of the dicts; no column when there is no dict. *)
Record DataFrame : Type := mkFrame {
  columns : list String.string;
  rows : list Event
}.

Definition pd_DataFrame (events : list Event) : DataFrame :=
  mkFrame (match events with
           | [] => []
           | _ => ["frame"; "y"; "x"; "intensity"]
           end) events.

(** The file system with the file [f] at the path [q]. *)
Definition store (q : path) (f : file) (w : world) : world :=
  mkWorld (fun p => if String.eqb p q then Some f else files w p)
          (writing_at w) (stdout w).

(** [df.to_csv(output_path, index=False)]: the file is created or
    replaced, or the call raises an [OSError] (or one of its subclasses)
    when the file cannot be opened or written. *)
Definition to_csv (df : DataFrame) (output_path : path) : io unit :=
  fun w =>
    match writing_at w output_path with
    | Completes => (inr tt, store output_path (Csv (columns df) (rows df)) w)
    | Refused => (inl OSError, w)
    | Interrupted => (inl OSError, store output_path Other w)
    end.

Definition save_events_to_csv (events : list Event) (output_path : path) : io unit :=
  let df := pd_DataFrame events in
  _ <~ to_csv df output_path ;;
  print ("Saved " +++ dec (length (rows df)) +++ " events to " +++ output_path).

(** The parsed command line. *)
Record args : Type := mkArgs {
  input : path;
  output : path;
  threshold : Q;
  min_distance : Z
}.

(** The command line with only the input path given. *)
Definition default_args (input : path) : args :=
  mkArgs input "events.csv" 5 3.

Definition main (a : args) : io unit :=
  found <~ os_path_exists (input a) ;;
  if negb found then raise (SystemExit ("Input file not found: " +++ input a))
  else
    _ <~ print ("Loading stack from " +++ input a +++ "...") ;;
    stack <~ load_tiff_stack (input a) ;;
    _ <~ print ("Stack shape: " +++ shape_str (Np.shape3 stack)) ;;
    _ <~ print "Detecting insertion events (slow method)..." ;;
    events <~ lift (detect_insertions_slow stack (threshold a) (min_distance a)) ;;
    _ <~ print ("Detected " +++ dec (length events) +++ " events.") ;;
    save_events_to_csv events (output a).

(** A file system that holds [scenario_A] under [movie.tif], has no
    directory [absent] and no room left under [full]. *)
Definition disk : world :=
  mkWorld (fun p => if String.eqb p "movie.tif" then Some (Tiff (scenario_A Np.uint16))
                    else None)
          (fun p => if String.eqb p "absent/events.csv" then Refused
                    else if String.eqb p "full/events.csv" then Interrupted
                    else Completes)
          [].

(** A file system that holds a stack with no frame and a text file. *)
Definition empty_disk : world :=
  mkWorld (fun p => if String.eqb p "empty.tif" then Some (Tiff no_frame)
                    else if String.eqb p "notes.txt" then Some Other
                    else None)
          (fun _ => Completes)
          [].

End Script.

(** * Properties *)

(** ** Loops and indexing *)

(** A loop whose body only appends what a pure function gives. *)
Lemma for_each_appends {A E : Type} (l : list A) (body : A -> list E -> result (list E))
  (f : A -> list E) :
  (forall a acc, In a l -> body a acc = Ok (acc ++ f a)) ->
  forall acc, for_each l body acc = Ok (acc ++ flat_map f l).
Proof.
  induction l as [|a l IH]; intros Hb acc; simpl.
  - now rewrite app_nil_r.
  - rewrite Hb by now left. simpl.
    rewrite IH by (intros; apply Hb; now right).
    now rewrite app_assoc.
Qed.

Lemma norm_index_in_range (n i : nat) :
  i < n -> Np.norm_index n (Z.of_nat i) = Ok i.
Proof.
  intros Hi; unfold Np.norm_index.
  replace ((0 <=? Z.of_nat i)%Z && (Z.of_nat i <? Z.of_nat n)%Z) with true.
  - now rewrite Nat2Z.id.
  - symmetry; apply andb_true_iff; split; [apply Z.leb_le | apply Z.ltb_lt]; lia.
Qed.

Lemma norm_index_of_Z (n : nat) (z : Z) :
  (0 <= z < Z.of_nat n)%Z -> Np.norm_index n z = Ok (Z.to_nat z).
Proof.
  intros Hz. rewrite <- (Z2Nat.id z) at 1 by lia.
  apply norm_index_in_range; lia.
Qed.

Lemma norm_index_empty (z : Z) : Np.norm_index 0 z = Raise IndexError.
Proof.
  unfold Np.norm_index; simpl.
  destruct (0 <=? z)%Z eqn:E1, (z <? 0)%Z eqn:E2; simpl; try reflexivity.
  apply Z.leb_le in E1; apply Z.ltb_lt in E2; lia.
Qed.

Lemma shape3_eta (stack : Np.ndarray3) :
  Np.shape3 stack = (T stack, Y stack, X stack).
Proof. unfold T, Y, X; now destruct (Np.shape3 stack) as [[? ?] ?]. Qed.

Lemma getitem3_in_range (stack : Np.ndarray3) (t : nat) :
  t < T stack -> Np.getitem3 stack (Z.of_nat t) = Ok (frame_at stack t).
Proof.
  intros Ht; unfold Np.getitem3. rewrite shape3_eta.
  now rewrite norm_index_in_range.
Qed.

Lemma getitem3_no_frame (stack : Np.ndarray3) (z : Z) :
  T stack = 0 -> Np.getitem3 stack z = Raise IndexError.
Proof.
  intros Ht; unfold Np.getitem3. rewrite shape3_eta, Ht.
  now rewrite norm_index_empty.
Qed.

Lemma in_all_cells (Y0 X0 : nat) (c : Np.cell) :
  In c (Np.all_cells Y0 X0) <-> fst c < Y0 /\ snd c < X0.
Proof.
  unfold Np.all_cells; rewrite in_flat_map; split.
  - intros (r & Hr & Hc). apply in_map_iff in Hc as (k & <- & Hk).
    apply in_seq in Hr; apply in_seq in Hk; simpl; lia.
  - intros [Hr Hk]. exists (fst c); split; [apply in_seq; lia|].
    apply in_map_iff; exists (snd c); split; [now destruct c | apply in_seq; lia].
Qed.

Lemma NoDup_all_cells (Y0 X0 : nat) : NoDup (Np.all_cells Y0 X0).
Proof.
  unfold Np.all_cells.
  assert (G : forall a n, NoDup (flat_map (fun r => map (fun k => (r, k)) (seq 0 X0)) (seq a n))
              /\ forall c, In c (flat_map (fun r => map (fun k => (r, k)) (seq 0 X0)) (seq a n))
                           -> a <= fst c).
  { intros a n; revert a; induction n as [|n IH]; intros a; simpl.
    - split; [constructor | intros c []].
    - destruct (IH (S a)) as [ND LB]. split.
      + apply NoDup_app; [ | exact ND | ].
        * apply Injective_map_NoDup; [ | apply seq_NoDup].
          intros k1 k2 E; now inversion E.
        * intros c Hc Hc'. apply LB in Hc'.
          apply in_map_iff in Hc as (k & <- & _); simpl in Hc'; lia.
      + intros c Hc; apply in_app_iff in Hc as [Hc|Hc].
        * apply in_map_iff in Hc as (k & <- & _); simpl; lia.
        * apply LB in Hc; lia. }
  apply G.
Qed.

(** ** Centroids and the run without exceptions *)

Lemma Qsum_indices (l : list nat) :
  Np.Qsum (map (fun i => inject_Z (Z.of_nat i)) l) = inject_Z (Zsum l).
Proof.
  induction l as [|i l IH]; simpl.
  - reflexivity.
  - rewrite IH. unfold Qplus, inject_Z; simpl. f_equal. ring.
Qed.

Lemma int_mean_trunc (l : list nat) : l <> [] -> Np.int_mean l = trunc_mean l.
Proof.
  intros Hl. unfold Np.int_mean, trunc_mean, Np.Qmean, Np.Qlen.
  rewrite Qsum_indices, length_map.
  destruct l as [|i l]; [congruence|].
  cbn [length]. rewrite Nat2Z.inj_succ, <- Zpos_P_of_succ_nat.
  unfold Np.py_int, Qdiv, Qinv, Qmult, inject_Z; simpl.
  now rewrite Z.mul_1_r.
Qed.

Lemma Zsum_bounds (l : list nat) (n : nat) :
  Forall (fun i => i < n) l ->
  (0 <= Zsum l <= Z.of_nat (length l) * (Z.of_nat n - 1))%Z.
Proof.
  induction 1 as [|i l Hi _ IH]; simpl Zsum; cbn [length].
  - lia.
  - rewrite Nat2Z.inj_succ. lia.
Qed.

Lemma trunc_mean_bounds (l : list nat) (n : nat) :
  l <> [] -> Forall (fun i => i < n) l ->
  (0 <= trunc_mean l < Z.of_nat n)%Z.
Proof.
  intros Hl Hb. pose proof (Zsum_bounds Hb) as [H0 H1].
  assert (Hlen : (0 < Z.of_nat (length l))%Z) by (destruct l; [congruence | cbn [length]; lia]).
  unfold trunc_mean. rewrite Z.quot_div_nonneg by lia. split.
  - apply Z.div_pos; lia.
  - apply Z.div_lt_upper_bound; nia.
Qed.

Lemma component_in (labeled : Np.ndarray2 nat) (i : nat) (c : Np.cell) :
  In c (component labeled i) <->
  (fst c < fst (Np.shape2 labeled) /\ snd c < snd (Np.shape2 labeled))
  /\ Np.at2 labeled c = i.
Proof.
  unfold component. rewrite filter_In. unfold Np.cells2, Np.at2; simpl.
  rewrite in_all_cells, Nat.eqb_eq. tauto.
Qed.

Lemma getitem2_in_range {A : Type} (a : Np.ndarray2 A) (cy cx : Z) :
  (0 <= cy < Z.of_nat (fst (Np.shape2 a)))%Z ->
  (0 <= cx < Z.of_nat (snd (Np.shape2 a)))%Z ->
  Np.getitem2 a cy cx = Ok (Np.data2 a (Z.to_nat cy) (Z.to_nat cx)).
Proof.
  intros Hy Hx; unfold Np.getitem2.
  now rewrite !norm_index_of_Z.
Qed.

(** The centroid of a non-empty set of cells of a grid is a cell of the
    grid. *)
Lemma centroid_in_range (comp : list Np.cell) (Y0 X0 : nat) :
  comp <> [] ->
  (forall c, In c comp -> fst c < Y0 /\ snd c < X0) ->
  (0 <= Np.int_mean (map fst comp) < Z.of_nat Y0)%Z
  /\ (0 <= Np.int_mean (map snd comp) < Z.of_nat X0)%Z.
Proof.
  intros Hne Hin.
  assert (N1 : map fst comp <> []) by (destruct comp; [congruence | discriminate]).
  assert (N2 : map snd comp <> []) by (destruct comp; [congruence | discriminate]).
  rewrite !int_mean_trunc by assumption.
  split; apply trunc_mean_bounds; try assumption;
    apply Forall_forall; intros k Hk; apply in_map_iff in Hk as (c & <- & Hc);
    apply Hin in Hc; tauto.
Qed.

Lemma extract_appends (t : nat) (diff : Np.ndarray2 Z) (labeled : Np.ndarray2 nat)
  (i : nat) (events : list Event) :
  Np.shape2 labeled = Np.shape2 diff ->
  extract t diff labeled i events = Ok (events ++ label_events t diff labeled i).
Proof.
  intros Hs. unfold extract, label_events, Np.where_.
  fold (component labeled i).
  destruct (component labeled i) as [|c comp] eqn:E.
  - simpl. now rewrite app_nil_r.
  - rewrite length_map. cbn [length Nat.eqb].
    destruct (@centroid_in_range (c :: comp) (fst (Np.shape2 diff)) (snd (Np.shape2 diff)))
      as [Hy Hx]; [discriminate | | ].
    + intros d Hd. rewrite <- E in Hd. apply component_in in Hd.
      rewrite <- Hs. tauto.
    + rewrite getitem2_in_range by assumption. reflexivity.
Qed.

Lemma step_appends (stack : Np.ndarray3) (threshold : Q) (t : nat) (events : list Event) :
  1 <= t < T stack ->
  step stack threshold (bg_std_of stack) t events
  = Ok (events ++ frame_events stack threshold t).
Proof.
  intros Ht. unfold step.
  rewrite getitem3_in_range by lia. cbn [bind].
  replace (Z.of_nat t - 1)%Z with (Z.of_nat (t - 1)) by lia.
  rewrite getitem3_in_range by lia. cbn [bind].
  fold (diff_at stack t). fold (candidates_at stack threshold t).
  unfold frame_events, labeled_at, num_features_at.
  destruct (Ndimage.label (candidates_at stack threshold t)) as [labeled num_features] eqn:E.
  cbn [fst snd].
  apply for_each_appends. intros i acc _.
  apply extract_appends.
  unfold Ndimage.label in E. inversion E; subst. reflexivity.
Qed.

(** A stack with a frame is processed to the end: no read is out of range. *)
Lemma detect_run (stack : Np.ndarray3) (threshold : Q) (min_distance : Z) :
  0 < T stack ->
  detect_insertions_slow stack threshold min_distance
  = Ok (flat_map (frame_events stack threshold) (range 1 (T stack))).
Proof.
  intros HT. unfold detect_insertions_slow. rewrite shape3_eta.
  change 0%Z with (Z.of_nat 0).
  rewrite (@getitem3_in_range stack 0) by assumption. cbn [bind].
  fold (bg_std_of stack).
  rewrite (@for_each_appends _ _ _ _ (frame_events stack threshold)).
  - reflexivity.
  - intros t acc Hin. apply in_seq in Hin. apply step_appends. lia.
Qed.

(** A stack with no frame has no reference frame to read. *)
Lemma detect_no_frame (stack : Np.ndarray3) (threshold : Q) (min_distance : Z) :
  T stack = 0 ->
  detect_insertions_slow stack threshold min_distance = Raise IndexError.
Proof.
  intros HT. unfold detect_insertions_slow. rewrite shape3_eta.
  now rewrite getitem3_no_frame.
Qed.

(** ** Labelling: cells and adjacency *)

Lemma cell_eqb_eq (c d : Np.cell) : Ndimage.cell_eqb c d = true <-> c = d.
Proof.
  unfold Ndimage.cell_eqb. rewrite andb_true_iff, !Nat.eqb_eq.
  destruct c, d; simpl; split; [intros [-> ->] | intros E; inversion E]; auto.
Qed.

Lemma mem_In (c : Np.cell) (l : list Np.cell) : Ndimage.mem c l = true <-> In c l.
Proof.
  unfold Ndimage.mem. rewrite existsb_exists. split.
  - intros (d & Hd & E). apply cell_eqb_eq in E. now subst.
  - intros H. exists c. split; [assumption | now apply cell_eqb_eq].
Qed.

Lemma mem_false (c : Np.cell) (l : list Np.cell) : Ndimage.mem c l = false <-> ~ In c l.
Proof. rewrite <- mem_In. destruct (Ndimage.mem c l); intuition congruence. Qed.

Lemma adjacent_sym (c d : Np.cell) : Ndimage.adjacent c d = Ndimage.adjacent d c.
Proof.
  unfold Ndimage.adjacent.
  rewrite (Nat.eqb_sym (fst c) (fst d)), (Nat.eqb_sym (snd c) (snd d)).
  rewrite (orb_comm (Nat.eqb (snd c) (S (snd d)))), (orb_comm (Nat.eqb (fst c) (S (fst d)))).
  reflexivity.
Qed.

Section Linked.
Variable adj : Np.cell -> Np.cell -> bool.
Variable fg : list Np.cell.
Hypothesis adj_sym : forall c d, adj c d = adj d c.

Lemma linked_in_l c d : linked adj fg c d -> In c fg.
Proof. induction 1; auto. Qed.

Lemma linked_in_r c d : linked adj fg c d -> In d fg.
Proof. induction 1; auto. Qed.

Lemma linked_trans c d e : linked adj fg c d -> linked adj fg d e -> linked adj fg c e.
Proof.
  intros Hcd Hde. induction Hde as [d Hd | d e f _ IH Hf Ha].
  - exact Hcd.
  - apply linked_step with e; auto.
Qed.

Lemma linked_sym c d : linked adj fg c d -> linked adj fg d c.
Proof.
  induction 1 as [c Hc | c d e Hcd IH He Ha].
  - now constructor.
  - apply linked_trans with d; [|exact IH].
    apply linked_step with e; [now constructor | eapply linked_in_r; eauto |].
    now rewrite adj_sym.
Qed.
End Linked.

(** ** Labelling: growing one feature *)

Lemma filter_none {A : Type} (f : A -> bool) (l : list A) :
  (forall a, In a l -> f a = false) -> filter f l = [].
Proof.
  induction l as [|a l IH]; intros H; simpl.
  - reflexivity.
  - rewrite (H a) by now left. apply IH. intros; apply H; now right.
Qed.

Section Fill.
Variable fg : list Np.cell.
Variable seed : Np.cell.
Hypothesis fg_nodup : NoDup fg.
Hypothesis seed_fg : In seed fg.

Lemma grow_incl comp : incl comp (Ndimage.grow fg comp).
Proof. intros c Hc. unfold Ndimage.grow. apply in_or_app. now left. Qed.

Lemma grow_inv comp : fill_inv fg seed comp -> fill_inv fg seed (Ndimage.grow fg comp).
Proof.
  intros (ND & Hincl & Hl). unfold Ndimage.grow. repeat split.
  - apply NoDup_app; [exact ND | now apply NoDup_filter |].
    intros c Hc Hc'. apply filter_In in Hc' as [_ Hc'].
    apply andb_true_iff in Hc' as [Hc' _]. apply negb_true_iff, mem_false in Hc'. auto.
  - intros c Hc. apply in_app_or in Hc as [Hc|Hc]; [auto|].
    now apply filter_In in Hc.
  - intros c Hc. apply in_app_or in Hc as [Hc|Hc]; [auto|].
    apply filter_In in Hc as [Hfg Hc]. apply andb_true_iff in Hc as [_ Hc].
    apply existsb_exists in Hc as (d & Hd & Ha).
    apply linked_step with d; auto. now rewrite adjacent_sym.
Qed.

(** A round of growth either adds a cell or finds the set closed. *)
Lemma grow_progress comp :
  (closed fg comp /\ Ndimage.grow fg comp = comp)
  \/ length comp < length (Ndimage.grow fg comp).
Proof.
  unfold Ndimage.grow.
  destruct (filter (fun c => negb (Ndimage.mem c comp) && existsb (Ndimage.adjacent c) comp) fg)
    as [|a l] eqn:E.
  - left. split; [|apply app_nil_r].
    intros c d Hc Hd Ha.
    destruct (Ndimage.mem d comp) eqn:M; [now apply mem_In|].
    assert (Hin : In d []).
    { rewrite <- E. apply filter_In. split; [exact Hd|].
      rewrite M. simpl. apply existsb_exists. now exists c. }
    destruct Hin.
  - right. rewrite length_app. simpl. lia.
Qed.

Lemma flood_inv n comp : fill_inv fg seed comp -> fill_inv fg seed (Ndimage.flood n fg comp).
Proof.
  revert comp; induction n as [|n IH]; intros comp H; simpl; auto using grow_inv.
Qed.

Lemma flood_incl n comp : incl comp (Ndimage.flood n fg comp).
Proof.
  revert comp; induction n as [|n IH]; intros comp; simpl.
  - apply incl_refl.
  - eapply incl_tran; [apply grow_incl | apply IH].
Qed.

Lemma flood_fixed n comp : Ndimage.grow fg comp = comp -> Ndimage.flood n fg comp = comp.
Proof. intros E; induction n as [|n IH]; simpl; [reflexivity | now rewrite E]. Qed.

(** With as many rounds as there are foreground cells left to take, the
    set is closed at the end. *)
Lemma flood_closed n comp :
  fill_inv fg seed comp -> length fg < length comp + n ->
  closed fg (Ndimage.flood n fg comp).
Proof.
  revert comp; induction n as [|n IH]; intros comp Hinv Hlen.
  - destruct Hinv as (ND & Hincl & _).
    pose proof (NoDup_incl_length ND Hincl). lia.
  - simpl. destruct (grow_progress comp) as [[Hc E] | Hlt].
    + rewrite E. now rewrite flood_fixed.
    + apply IH; [now apply grow_inv | lia].
Qed.

Lemma closed_linked comp s c :
  closed fg comp -> In s comp -> linked Ndimage.adjacent fg s c -> In c comp.
Proof.
  intros Hcl Hs H. induction H as [s Hs' | s d e _ IH He Ha].
  - exact Hs.
  - apply (Hcl d e); auto. now rewrite adjacent_sym.
Qed.

Lemma seed_inv : fill_inv fg seed [seed].
Proof.
  repeat split.
  - constructor; [intros [] | constructor].
  - intros c [<-|[]]; exact seed_fg.
  - intros c [<-|[]]; now constructor.
Qed.

(** The feature of a seed is the set of foreground cells linked to it. *)
Lemma feature_spec c :
  In c (Ndimage.feature fg seed) <-> linked Ndimage.adjacent fg seed c.
Proof.
  unfold Ndimage.feature. split.
  - apply (flood_inv (length fg) seed_inv).
  - apply closed_linked.
    + apply flood_closed; [apply seed_inv | simpl; lia].
    + apply flood_incl. now left.
Qed.
End Fill.

(** ** Labelling: the raster scan *)

Lemma existsb_mem (c : Np.cell) (found : list (list Np.cell)) :
  existsb (Ndimage.mem c) found = true <-> exists f, In f found /\ In c f.
Proof.
  rewrite existsb_exists. split; intros (f & Hf & Hc); exists f; split; auto;
    now apply mem_In.
Qed.

Lemma existsb_mem_false (c : Np.cell) (found : list (list Np.cell)) :
  existsb (Ndimage.mem c) found = false <-> forall f, In f found -> ~ In c f.
Proof.
  split.
  - intros E f Hf Hc.
    assert (H : existsb (Ndimage.mem c) found = true) by (apply existsb_mem; eauto).
    congruence.
  - intros H. destruct (existsb (Ndimage.mem c) found) eqn:E; [|reflexivity].
    apply existsb_mem in E as (f & Hf & Hc). now destruct (H f Hf).
Qed.

Section Scan.
Variable fg : list Np.cell.
Hypothesis fg_nodup : NoDup fg.

Lemma scan_built todo found :
  incl todo fg -> built fg found -> built fg (Ndimage.scan fg todo found).
Proof.
  revert found; induction todo as [|c todo IH]; intros found Hincl Hb; simpl.
  - exact Hb.
  - assert (Hc : In c fg) by (apply Hincl; now left).
    assert (Ht : incl todo fg) by (intros d Hd; apply Hincl; now right).
    destruct (existsb (Ndimage.mem c) found) eqn:E.
    + now apply IH.
    + apply IH; [exact Ht | now constructor].
Qed.

Lemma scan_extends todo found :
  exists more, Ndimage.scan fg todo found = found ++ more.
Proof.
  revert found; induction todo as [|c todo IH]; intros found; simpl.
  - exists []. now rewrite app_nil_r.
  - destruct (existsb (Ndimage.mem c) found).
    + apply IH.
    + destruct (IH (found ++ [Ndimage.feature fg c])) as [more E].
      exists (Ndimage.feature fg c :: more). now rewrite E, <- app_assoc.
Qed.

(** Every scanned cell ends up in a feature. *)
Lemma scan_covers todo found c :
  incl todo fg -> In c todo ->
  exists f, In f (Ndimage.scan fg todo found) /\ In c f.
Proof.
  revert found; induction todo as [|d todo IH]; intros found Hincl Hc; [destruct Hc|].
  assert (Ht : incl todo fg) by (intros e He; apply Hincl; now right).
  simpl. destruct Hc as [->|Hc].
  - assert (Hfg : In c fg) by (apply Hincl; now left).
    destruct (existsb (Ndimage.mem c) found) eqn:E.
    + apply existsb_mem in E as (f & Hf & Hcf).
      destruct (scan_extends todo found) as [more ->].
      exists f. split; [apply in_or_app; now left | exact Hcf].
    + destruct (scan_extends todo (found ++ [Ndimage.feature fg c])) as [more ->].
      exists (Ndimage.feature fg c). split.
      * apply in_or_app; left. apply in_or_app; right. now left.
      * apply feature_spec; auto. now constructor.
  - destruct (existsb (Ndimage.mem d) found); now apply IH.
Qed.

(** Each feature of a scan is the class of a seed that it holds first. *)
Lemma built_seeds found :
  built fg found ->
  forall i, i < length found ->
    exists seed, In seed fg /\ nth i found [] = Ndimage.feature fg seed
                 /\ first_at seed found i.
Proof.
  induction 1 as [|found seed Hb IH Hs Hnew]; intros i Hi; [simpl in Hi; lia|].
  rewrite length_app in Hi; simpl in Hi.
  destruct (Nat.eq_dec i (length found)) as [->|Hne].
  - exists seed. split; [exact Hs|]. split.
    + now rewrite app_nth2, Nat.sub_diag by lia.
    + repeat split.
      * rewrite length_app; simpl; lia.
      * rewrite app_nth2, Nat.sub_diag by lia. simpl.
        apply feature_spec; auto. now constructor.
      * intros j Hj. rewrite app_nth1 by lia.
        apply (proj1 (existsb_mem_false seed found) Hnew). now apply nth_In.
  - destruct (IH i) as (s & Hsfg & E & Hlt & Hin & Hfirst); [lia|].
    exists s. split; [exact Hsfg|]. split.
    + now rewrite app_nth1 by lia.
    + repeat split.
      * rewrite length_app; simpl; lia.
      * now rewrite app_nth1 by lia.
      * intros j Hj. rewrite app_nth1 by lia. now apply Hfirst.
Qed.
End Scan.

(** ** Labelling: the label of a cell *)

Lemma first_at_unique (c : Np.cell) (found : list (list Np.cell)) (i j : nat) :
  first_at c found i -> first_at c found j -> i = j.
Proof.
  intros (_ & Hi & Fi) (_ & Hj & Fj).
  destruct (Nat.lt_trichotomy i j) as [L|[E|L]]; [|exact E|].
  - now destruct (Fj i L).
  - now destruct (Fi j L).
Qed.

Lemma label_of_cases (c : Np.cell) (found : list (list Np.cell)) (k : nat) :
  (Ndimage.label_of c found k = 0 /\ forall f, In f found -> ~ In c f)
  \/ exists i, Ndimage.label_of c found k = k + i /\ first_at c found i.
Proof.
  revert k; induction found as [|f found IH]; intros k; simpl.
  - left. split; [reflexivity | intros f []].
  - destruct (Ndimage.mem c f) eqn:M.
    + right. exists 0. split; [lia|]. repeat split; simpl; [lia | now apply mem_In | lia].
    + apply mem_false in M. destruct (IH (S k)) as [[E H] | (i & E & Hlt & Hin & Hfirst)].
      * left. split; [exact E|]. intros g [<-|Hg]; auto.
      * right. exists (S i). split; [lia|]. repeat split; simpl; [lia | exact Hin |].
        intros [|j] Hj; [exact M | apply Hfirst; lia].
Qed.

Lemma label_of_first (c : Np.cell) (found : list (list Np.cell)) (k i : nat) :
  first_at c found i -> Ndimage.label_of c found k = k + i.
Proof.
  intros H. destruct (label_of_cases c found k) as [[_ Hno] | (j & E & Hj)].
  - destruct H as (Hlt & Hin & _). destruct (Hno (nth i found [])); auto using nth_In.
  - now rewrite (first_at_unique H Hj).
Qed.

Lemma label_of_pos (c : Np.cell) (found : list (list Np.cell)) (k n : nat) :
  0 < k -> Ndimage.label_of c found k = n -> 0 < n ->
  k <= n /\ first_at c found (n - k).
Proof.
  intros Hk E Hn. destruct (label_of_cases c found k) as [[E0 _] | (i & Ei & Hi)].
  - lia.
  - rewrite Ei in E. subst n. split; [lia|]. now replace (k + i - k) with i by lia.
Qed.

(** ** Labelling: what [ndimage.label] returns *)

Section Label.
Variable input : Np.ndarray2 bool.

Local Notation "'fg'" := (Ndimage.foreground input).
Local Notation "'labeled'" := (fst (Ndimage.label input)).
Local Notation "'num_features'" := (snd (Ndimage.label input)).

Lemma foreground_in c :
  In c fg <->
  (fst c < fst (Np.shape2 input) /\ snd c < snd (Np.shape2 input))
  /\ Np.at2 input c = true.
Proof.
  unfold Ndimage.foreground. rewrite filter_In. unfold Np.cells2.
  now rewrite in_all_cells.
Qed.

Lemma foreground_nodup : NoDup fg.
Proof. apply NoDup_filter, NoDup_all_cells. Qed.

Lemma features_built : built fg (Ndimage.features input).
Proof. apply scan_built; [apply incl_refl | constructor]. Qed.

Lemma labeled_at2 c : Np.at2 labeled c = Ndimage.label_of c (Ndimage.features input) 1.
Proof. unfold Ndimage.label, Np.at2. simpl. now destruct c. Qed.

Lemma labeled_shape : Np.shape2 labeled = Np.shape2 input.
Proof. reflexivity. Qed.

Lemma num_features_length : num_features = length (Ndimage.features input).
Proof. reflexivity. Qed.

(** A positive label names a feature: it is at most the number of
    features, and the cells that carry it are those linked to a seed that
    carries it. *)
Lemma labeled_feature c n :
  Np.at2 labeled c = n -> 0 < n ->
  n <= num_features
  /\ exists seed, In seed fg /\ Np.at2 labeled seed = n
                  /\ linked Ndimage.adjacent fg seed c
                  /\ Ndimage.feature fg seed = nth (n - 1) (Ndimage.features input) [].
Proof.
  intros E Hn. rewrite labeled_at2 in E.
  destruct (label_of_pos _ _ (Nat.lt_0_1) E Hn) as [Hle Hfirst].
  pose proof Hfirst as (Hlt & Hin & _).
  destruct (built_seeds foreground_nodup features_built Hlt) as (seed & Hs & Ef & Hsf).
  split; [rewrite num_features_length; lia|].
  exists seed. split; [exact Hs|]. split; [|split].
  - rewrite labeled_at2, (label_of_first 1 Hsf). lia.
  - rewrite Ef in Hin. now apply feature_spec in Hin; auto using foreground_nodup.
  - now rewrite Ef.
Qed.

(** Every true cell gets a label between 1 and the number of features. *)
Lemma labeled_foreground c : In c fg -> 1 <= Np.at2 labeled c <= num_features.
Proof.
  intros Hc.
  destruct (@scan_covers fg foreground_nodup fg [] c (@incl_refl _ fg) Hc)
    as (f & Hf & Hcf).
  fold (Ndimage.features input) in Hf.
  rewrite labeled_at2.
  destruct (label_of_cases c (Ndimage.features input) 1) as [[_ Hno] | (i & E & Hlt & _)].
  - now destruct (Hno f Hf).
  - rewrite E, num_features_length. lia.
Qed.

(** Only true cells are labelled. *)
Lemma labeled_background c : 0 < Np.at2 labeled c -> In c fg.
Proof.
  intros Hn. destruct (labeled_feature c eq_refl Hn) as (_ & seed & _ & _ & Hl & _).
  eapply linked_in_r; eauto.
Qed.

(** Every label from 1 to the number of features is carried by a true
    cell. *)
Lemma label_used i :
  1 <= i <= num_features -> exists seed, In seed fg /\ Np.at2 labeled seed = i.
Proof.
  intros Hi. rewrite num_features_length in Hi.
  destruct (@built_seeds fg foreground_nodup _ features_built (i - 1))
    as (seed & Hs & _ & Hsf); [lia|].
  exists seed. split; [exact Hs|].
  rewrite labeled_at2, (label_of_first 1 Hsf). lia.
Qed.

(** Two true cells carry one label exactly when a chain of true cells,
    each sharing an edge with the next, joins them. *)
Lemma labeled_linked c d :
  In c fg -> In d fg ->
  (Np.at2 labeled c = Np.at2 labeled d <-> linked Ndimage.adjacent fg c d).
Proof.
  intros Hc Hd.
  assert (Hc1 : 1 <= Np.at2 labeled c) by now apply labeled_foreground.
  assert (Hd1 : 1 <= Np.at2 labeled d) by now apply labeled_foreground.
  destruct (labeled_feature c eq_refl Hc1) as (_ & s & Hs & Es & Ls & Fs).
  split.
  - intros E.
    destruct (labeled_feature d eq_refl Hd1) as (_ & s' & Hs' & Es' & Ls' & Fs').
    rewrite <- E in Fs'. rewrite <- Fs in Fs'.
    assert (Ld : linked Ndimage.adjacent fg s d).
    { apply feature_spec; auto using foreground_nodup.
      rewrite <- Fs'. apply feature_spec; auto using foreground_nodup. }
    apply linked_trans with s; [|exact Ld].
    apply linked_sym; [apply adjacent_sym | exact Ls].
  - intros L. symmetry. rewrite (labeled_at2 d).
    pose proof (labeled_at2 c) as Ec. symmetry in Ec.
    destruct (label_of_pos _ _ Nat.lt_0_1 Ec Hc1) as [_ (Hlt & Hin & Hfirst)].
    transitivity (1 + (Np.at2 labeled c - 1)); [|lia].
    apply label_of_first. repeat split; [exact Hlt | |].
    + rewrite <- Fs. apply feature_spec; auto using foreground_nodup.
      now apply linked_trans with c.
    + intros j Hj Hdj.
      destruct (@built_seeds fg foreground_nodup _ features_built j)
        as (sj & Hsj & Ej & _); [lia|].
      apply (Hfirst j Hj). rewrite Ej in *.
      apply feature_spec; auto using foreground_nodup.
      apply feature_spec in Hdj; auto using foreground_nodup.
      apply linked_trans with d; [exact Hdj|].
      apply linked_sym; [apply adjacent_sym | exact L].
Qed.

(** An input with no true cell has no feature. *)
Lemma label_no_foreground : fg = [] -> num_features = 0.
Proof.
  intros E. unfold Ndimage.label, Ndimage.features. simpl.
  now rewrite E.
Qed.
End Label.

(** ** The threshold comparison *)

Lemma Qltb_lt (a b : Q) : Np.Qltb a b = true <-> (a < b)%Q.
Proof.
  unfold Np.Qltb. rewrite negb_true_iff. split.
  - intros E. apply Qnot_le_lt. intros H. apply Qle_bool_iff in H. congruence.
  - intros H. destruct (Qle_bool b a) eqn:E; [|reflexivity].
    apply Qle_bool_iff in E. now apply Qlt_not_le in H.
Qed.

Lemma Q2R_inject_Z (z : Z) : Q2R (inject_Z z) = IZR z.
Proof. unfold Q2R, inject_Z; simpl. field. Qed.

Lemma Qsum_nonneg (l : list Q) : (forall q, In q l -> (0 <= q)%Q) -> (0 <= Np.Qsum l)%Q.
Proof.
  induction l as [|q l IH]; intros H; simpl.
  - apply Qle_refl.
  - replace 0%Q with (0 + 0)%Q by reflexivity.
    apply Qplus_le_compat; [apply H; now left | apply IH; intros; apply H; now right].
Qed.

Lemma Qmean_nonneg (l : list Q) : (forall q, In q l -> (0 <= q)%Q) -> (0 <= Np.Qmean l)%Q.
Proof.
  intros H. unfold Np.Qmean, Qdiv.
  apply Qmult_le_0_compat; [now apply Qsum_nonneg|].
  apply Qinv_le_0_compat. unfold Np.Qlen.
  rewrite <- (Zle_Qle 0). lia.
Qed.

Lemma Qsquare_nonneg (q : Q) : (0 <= q * q)%Q.
Proof. unfold Qle, Qmult; simpl. nia. Qed.

(** A variance is not negative. *)
Lemma Qvar_nonneg (l : list Z) : (0 <= Np.Qvar l)%Q.
Proof.
  unfold Np.Qvar. apply Qmean_nonneg.
  intros q Hq. apply in_map_iff in Hq as (z & <- & _).
  apply Qsquare_nonneg.
Qed.

(** The boolean comparison decides [d > k * sqrt v] over the reals. *)
Lemma gt_spec (d : Z) (k v : Q) :
  (0 <= v)%Q -> (Np.gt d (Np.Rad k v) = true <-> (IZR d > toR k v)%R).
Proof.
  intros Hv. unfold Np.gt, toR.
  assert (Hs : (0 <= sqrt (Q2R v))%R) by apply sqrt_pos.
  assert (Hss : (sqrt (Q2R v) * sqrt (Q2R v) = Q2R v)%R).
  { apply sqrt_sqrt. replace 0%R with (Q2R 0) by (unfold Q2R; simpl; field).
    now apply Qle_Rle. }
  set (s := sqrt (Q2R v)) in *.
  assert (Hb2 : Q2R (k * k * v) = ((Q2R k * s) * (Q2R k * s))%R).
  { rewrite !Q2R_mult, <- Hss. ring. }
  assert (Hd2 : Q2R (inject_Z (d * d)) = (IZR d * IZR d)%R).
  { now rewrite Q2R_inject_Z, mult_IZR. }
  assert (Hd : (0 <? d)%Z = true <-> (0 < IZR d)%R).
  { rewrite Z.ltb_lt. split; [apply IZR_lt | apply lt_IZR]. }
  unfold Rgt. set (B := (Q2R k * s)%R) in *. set (D := IZR d) in *.
  destruct (Qle_bool 0 k) eqn:Ek.
  - apply Qle_bool_iff, Qle_Rle in Ek.
    replace (Q2R 0) with 0%R in Ek by (unfold Q2R; simpl; field).
    assert (HB : (0 <= B)%R) by (unfold B; nra).
    rewrite andb_true_iff, Hd, Qltb_lt. clearbody B D. split.
    + intros [H0 H]. apply Qlt_Rlt in H. rewrite Hb2, Hd2 in H.
      destruct (Rlt_le_dec B D) as [G|G]; [exact G | nra].
    + intros H. split; [lra|]. apply Rlt_Qlt. rewrite Hb2, Hd2. nra.
  - assert (Hk : (Q2R k < 0)%R).
    { replace 0%R with (Q2R 0) by (unfold Q2R; simpl; field).
      apply Qlt_Rlt, Qnot_le_lt. intros H. apply Qle_bool_iff in H. congruence. }
    assert (HB : (B <= 0)%R) by (unfold B; nra).
    rewrite orb_true_iff, Hd, Qltb_lt. clearbody B D. split.
    + intros [H0 | H]; [lra|]. apply Qlt_Rlt in H. rewrite Hb2, Hd2 in H.
      destruct (Rlt_le_dec B D) as [G|G]; [exact G | nra].
    + intros H. destruct (Rlt_le_dec 0 D) as [H0|H0]; [now left|].
      right. apply Rlt_Qlt. rewrite Hb2, Hd2. nra.
Qed.

(** A larger multiplier of a standard deviation admits no new sample. *)
Lemma gt_antimonotone (d : Z) (a b : Q) (sd : Np.npfloat) :
  match sd with Np.NaN => True | Np.Rad _ v => (0 <= v)%Q end ->
  match sd with Np.NaN => True | Np.Rad k _ => (0 <= k)%Q end ->
  (a <= b)%Q ->
  Np.gt d (Np.mul b sd) = true -> Np.gt d (Np.mul a sd) = true.
Proof.
  destruct sd as [|k v]; simpl Np.mul; [auto|].
  intros Hv Hk Hab H. apply gt_spec in H; [|exact Hv]. apply gt_spec; [exact Hv|].
  unfold toR in *. rewrite Q2R_mult in *.
  apply Qle_Rle in Hab, Hk.
  replace (Q2R 0) with 0%R in Hk by (unfold Q2R; simpl; field).
  pose proof (sqrt_pos (Q2R v)) as Hs.
  assert (HP : (0 <= Q2R k * sqrt (Q2R v))%R) by now apply Rmult_le_pos.
  assert (HM : (Q2R a * (Q2R k * sqrt (Q2R v)) <= Q2R b * (Q2R k * sqrt (Q2R v)))%R)
    by now apply Rmult_le_compat_r.
  unfold Rgt in *. rewrite !Rmult_assoc in *. lra.
Qed.

(** No multiplier that is not negative lets a zero difference through. *)
Lemma gt_zero (a : Q) (sd : Np.npfloat) :
  match sd with Np.NaN => True | Np.Rad k _ => (0 <= k)%Q end ->
  (0 <= a)%Q -> Np.gt 0 (Np.mul a sd) = false.
Proof.
  destruct sd as [|k v]; simpl Np.mul; intros Hk Ha; [reflexivity|].
  unfold Np.gt.
  assert (E : Qle_bool 0 (a * k) = true) by (apply Qle_bool_iff; now apply Qmult_le_0_compat).
  now rewrite E.
Qed.

Lemma bg_std_wf (stack : Np.ndarray3) :
  match bg_std_of stack with
  | Np.NaN => True
  | Np.Rad k v => (0 <= k)%Q /\ (0 <= v)%Q
  end.
Proof.
  unfold bg_std_of, Np.std. destruct (Np.ravel (frame_at stack 0)); [exact I|].
  split; [discriminate | apply Qvar_nonneg].
Qed.

(** ** The events of one frame pair *)

Lemma candidates_shape (stack : Np.ndarray3) (threshold : Q) (t : nat) :
  Np.shape2 (candidates_at stack threshold t) = (Y stack, X stack).
Proof. reflexivity. Qed.

Lemma labeled_at_shape (stack : Np.ndarray3) (threshold : Q) (t : nat) :
  Np.shape2 (labeled_at stack threshold t) = (Y stack, X stack).
Proof. reflexivity. Qed.

(** No label is without a cell: the loop over the labels never skips. *)
Lemma component_nonempty (stack : Np.ndarray3) (threshold : Q) (t i : nat) :
  1 <= i <= num_features_at stack threshold t ->
  component (labeled_at stack threshold t) i <> [].
Proof.
  intros Hi. apply label_used in Hi as (seed & Hs & E).
  apply foreground_in in Hs as [Hb _].
  intros Hnil.
  assert (Hin : In seed (component (labeled_at stack threshold t) i)).
  { apply component_in. split; [exact Hb | exact E]. }
  rewrite Hnil in Hin. destruct Hin.
Qed.

Lemma flat_map_singletons {A B : Type} (f : A -> list B) (g : A -> B) (l : list A) :
  (forall a, In a l -> f a = [g a]) -> flat_map f l = map g l.
Proof.
  induction l as [|a l IH]; intros H; simpl.
  - reflexivity.
  - rewrite (H a) by now left. simpl. f_equal. apply IH. intros; apply H; now right.
Qed.

Lemma frame_events_map (stack : Np.ndarray3) (threshold : Q) (t : nat) :
  frame_events stack threshold t
  = map (fun i => event_of t (diff_at stack t) (component (labeled_at stack threshold t) i))
        (range 1 (num_features_at stack threshold t + 1)).
Proof.
  unfold frame_events. apply flat_map_singletons.
  intros i Hi. apply in_seq in Hi. unfold label_events.
  destruct (component (labeled_at stack threshold t) i) eqn:E; [|reflexivity].
  exfalso. revert E. apply component_nonempty. lia.
Qed.

Lemma frame_events_in (stack : Np.ndarray3) (threshold : Q) (t : nat) (e : Event) :
  In e (frame_events stack threshold t) ->
  exists i, 1 <= i <= num_features_at stack threshold t
            /\ e = event_of t (diff_at stack t) (component (labeled_at stack threshold t) i).
Proof.
  rewrite frame_events_map. intros H. apply in_map_iff in H as (i & <- & Hi).
  apply in_seq in Hi. exists i. split; [lia | reflexivity].
Qed.

(** A frame pair with no candidate gives no event. *)
Lemma frame_events_none (stack : Np.ndarray3) (threshold : Q) (t : nat) :
  Ndimage.foreground (candidates_at stack threshold t) = [] ->
  frame_events stack threshold t = [].
Proof.
  intros E. unfold frame_events, num_features_at.
  now rewrite (label_no_foreground _ E).
Qed.

Lemma event_of_centroid (t : nat) (diff : Np.ndarray2 Z) (comp : list Np.cell) :
  comp <> [] -> event_of t diff comp = centroid_event t diff comp.
Proof.
  intros Hne. unfold event_of, centroid_event, Np.at2.
  assert (N1 : map fst comp <> []) by (destruct comp; [congruence | discriminate]).
  assert (N2 : map snd comp <> []) by (destruct comp; [congruence | discriminate]).
  now rewrite !int_mean_trunc by assumption.
Qed.

Lemma sorted_block (a : nat) (l1 l2 : list nat) :
  Forall (fun k => k = a) l1 -> Forall (fun k => a <= k) l2 ->
  StronglySorted le l2 -> StronglySorted le (l1 ++ l2).
Proof.
  intros H1 H2 Hs. induction H1 as [|k l1 -> H1 IH]; simpl.
  - exact Hs.
  - constructor; [exact IH|].
    apply Forall_app; split; [|exact H2].
    eapply Forall_impl; [|exact H1]. simpl. intros; lia.
Qed.

(** The events of a run come frame by frame, in the order of the frames. *)
Lemma frames_in_order (f : nat -> list Event) (a n : nat) :
  (forall t e, In e (f t) -> frame e = t) ->
  StronglySorted le (map frame (flat_map f (seq a n)))
  /\ Forall (fun e => a <= frame e) (flat_map f (seq a n)).
Proof.
  intros Hf. revert a; induction n as [|n IH]; intros a; simpl.
  - split; constructor.
  - destruct (IH (S a)) as [Hs Hlb].
    assert (Hhere : Forall (fun e => frame e = a) (f a))
      by (apply Forall_forall; intros e He; now apply Hf).
    split.
    + rewrite map_app. apply sorted_block with a; [ | | exact Hs].
      * now apply Forall_map.
      * apply Forall_map. eapply Forall_impl; [|exact Hlb]. simpl. intros; lia.
    + apply Forall_app; split.
      * eapply Forall_impl; [|exact Hhere]. simpl. intros; lia.
      * eapply Forall_impl; [|exact Hlb]. simpl. intros; lia.
Qed.

Lemma frame_events_frame (stack : Np.ndarray3) (threshold : Q) (t : nat) (e : Event) :
  In e (frame_events stack threshold t) -> frame e = t.
Proof. intros H. apply frame_events_in in H as (i & _ & ->). reflexivity. Qed.

(** What a run returns, whenever it returns. *)
Lemma detect_returns (stack : Np.ndarray3) (threshold : Q) (min_distance : Z)
  (events : list Event) :
  detect_insertions_slow stack threshold min_distance = Ok events ->
  0 < T stack /\ events = flat_map (frame_events stack threshold) (range 1 (T stack)).
Proof.
  intros H. destruct (Nat.eq_dec (T stack) 0) as [E|E].
  - rewrite detect_no_frame in H by exact E. discriminate.
  - rewrite detect_run in H by lia. inversion H. split; [lia | reflexivity].
Qed.

Lemma static_no_candidate (stack : Np.ndarray3) (threshold : Q) (t : nat) :
  static stack -> (0 < threshold)%Q -> 1 <= t < T stack ->
  Ndimage.foreground (candidates_at stack threshold t) = [].
Proof.
  intros Hst Hthr Ht. unfold Ndimage.foreground. apply filter_none.
  intros c Hc. unfold Np.cells2 in Hc. rewrite candidates_shape in Hc.
  apply in_all_cells in Hc as [Hy Hx]. simpl in Hy, Hx.
  unfold candidates_at, Np.gt2, Np.at2, diff_at, Np.sub, frame_at. simpl.
  rewrite (Hst t (fst c) (snd c) Ht Hy Hx), Z.sub_diag.
  replace (Np.wrap (Np.dt3 stack) 0) with 0%Z by (now destruct (Np.dt3 stack)).
  apply gt_zero; [|now apply Qlt_le_weak].
  pose proof (bg_std_wf stack) as W. destruct (bg_std_of stack); tauto.
Qed.

Lemma empty_frame_no_candidate (stack : Np.ndarray3) (threshold : Q) (t : nat) :
  Y stack * X stack = 0 ->
  Ndimage.foreground (candidates_at stack threshold t) = [].
Proof.
  intros E. unfold Ndimage.foreground. apply filter_none.
  intros c Hc. unfold Np.cells2 in Hc. rewrite candidates_shape in Hc.
  apply in_all_cells in Hc as [Hy Hx]. simpl in Hy, Hx. nia.
Qed.

Lemma flat_map_nil {A B : Type} (f : A -> list B) (l : list A) :
  (forall a, In a l -> f a = []) -> flat_map f l = [].
Proof.
  induction l as [|a l IH]; intros H; simpl; [reflexivity|].
  rewrite (H a) by now left. apply IH. intros; apply H; now right.
Qed.

(** * The claims *)

(** ** C1: the adjacency of the components *)

(** C1, as stated, fails: in the difference image of [corners] the two
    candidate cells (0,0) and (1,1) touch at a corner, yet they get
    different labels and the run returns two Events. *)
Lemma C1_diagonal_cells_split :
  let mask := candidates_at corners 5 1 in
  In (0, 0) (Ndimage.foreground mask) /\ In (1, 1) (Ndimage.foreground mask)
  /\ adjacent8 (0, 0) (1, 1) = true
  /\ Np.at2 (fst (Ndimage.label mask)) (0, 0) <> Np.at2 (fst (Ndimage.label mask)) (1, 1)
  /\ detect_insertions_slow corners 5 3 = Ok [mkEvent 1 0 0 9; mkEvent 1 1 1 9].
Proof.
  cbv zeta. repeat split.
  - vm_compute. now left.
  - vm_compute. right. now left.
  - vm_compute. discriminate.
Qed.

(** C1, amended: for every mask, every true cell gets the label of one
    feature and lies in the component of that label, and two true cells get
    the same label exactly when a chain of true cells, each sharing an edge
    with the next, joins them (4-connectivity). *)
Theorem C1_components_are_edge_connected (mask : Np.ndarray2 bool) (c d : Np.cell) :
  In c (Ndimage.foreground mask) -> In d (Ndimage.foreground mask) ->
  let labeled := fst (Ndimage.label mask) in
  let num_features := snd (Ndimage.label mask) in
  1 <= Np.at2 labeled c <= num_features
  /\ In c (component labeled (Np.at2 labeled c))
  /\ (Np.at2 labeled c = Np.at2 labeled d
      <-> linked Ndimage.adjacent (Ndimage.foreground mask) c d).
Proof.
  intros Hc Hd labeled num_features. split; [|split].
  - now apply labeled_foreground.
  - apply component_in. split; [|reflexivity].
    apply foreground_in in Hc as [Hb _]. exact Hb.
  - now apply labeled_linked.
Qed.

Lemma C1_components_are_edge_connected_witness :
  let mask := candidates_at ridge 4 1 in
  let labeled := fst (Ndimage.label mask) in
  1 <= Np.at2 labeled (0, 0) <= snd (Ndimage.label mask)
  /\ In (0, 0) (component labeled (Np.at2 labeled (0, 0)))
  /\ (Np.at2 labeled (0, 0) = Np.at2 labeled (0, 2)
      <-> linked Ndimage.adjacent (Ndimage.foreground mask) (0, 0) (0, 2)).
Proof.
  apply (@C1_components_are_edge_connected (candidates_at ridge 4 1) (0, 0) (0, 2)).
  - vm_compute. now left.
  - vm_compute. right. right. now left.
Defined.

(** ** C2: the threshold and the number of events *)

(** C2, as stated, fails: on [ridge] the multiplier 4 gives one Event and
    the larger multiplier 7 gives two, the dimmer middle cell no longer
    joining its neighbours. *)
Lemma C2_larger_threshold_more_events :
  (4 <= 7)%Q
  /\ detect_insertions_slow ridge 4 3 = Ok [mkEvent 1 0 1 5]
  /\ detect_insertions_slow ridge 7 3 = Ok [mkEvent 1 0 0 10; mkEvent 1 0 2 10]
  /\ ~ length (produced (detect_insertions_slow ridge 7 3))
       <= length (produced (detect_insertions_slow ridge 4 3)).
Proof.
  repeat split.
  - discriminate.
  - vm_compute. lia.
Qed.

(** C2, amended: for multipliers a <= b the candidates of every frame pair
    at b are candidates at a, so the number of candidate cells does not
    grow with the multiplier. *)
Theorem C2_candidates_shrink (stack : Np.ndarray3) (a b : Q) (t : nat) :
  (a <= b)%Q ->
  incl (Ndimage.foreground (candidates_at stack b t))
       (Ndimage.foreground (candidates_at stack a t))
  /\ length (Ndimage.foreground (candidates_at stack b t))
     <= length (Ndimage.foreground (candidates_at stack a t)).
Proof.
  intros Hab.
  assert (Hincl : incl (Ndimage.foreground (candidates_at stack b t))
                       (Ndimage.foreground (candidates_at stack a t))).
  { intros c Hc. apply foreground_in in Hc as [Hb Hc]. apply foreground_in.
    split; [exact Hb|].
    unfold candidates_at, Np.gt2, Np.at2 in *. simpl in *.
    pose proof (bg_std_wf stack) as W.
    apply gt_antimonotone with b; auto; destruct (bg_std_of stack); tauto. }
  split; [exact Hincl|].
  apply NoDup_incl_length; [apply foreground_nodup | exact Hincl].
Qed.

Lemma C2_candidates_shrink_witness :
  incl (Ndimage.foreground (candidates_at ridge 7 1))
       (Ndimage.foreground (candidates_at ridge 4 1))
  /\ length (Ndimage.foreground (candidates_at ridge 7 1))
     <= length (Ndimage.foreground (candidates_at ridge 4 1)).
Proof.
  apply (@C2_candidates_shrink ridge 4 7 1). vm_compute. discriminate.
Defined.

(** ** C3: scenario A *)

(** C3: on the 3-frame 5x5 stack that is zero but for the value 100 at
    (2,2) of frame 2, with multiplier 5 the run returns exactly the Event
    frame 2, y 2, x 2, intensity 100, whatever the dtype of the stack. *)
Theorem C3_scenario_A (dt : Np.dtype) (min_distance : Z) :
  detect_insertions_slow (scenario_A dt) 5 min_distance = Ok [mkEvent 2 2 2 100].
Proof. destruct dt; vm_compute; reflexivity. Qed.

(** ** C4: degenerate stacks *)

(** C4, as stated, fails: the frames of [no_pixel] have no pixel, the
    reference statistics are not a number, and yet the run does not fail:
    it returns the empty list. *)
Lemma C4_empty_frames_do_not_fail :
  0 < T no_pixel /\ Y no_pixel * X no_pixel = 0
  /\ bg_std_of no_pixel = Np.NaN
  /\ detect_insertions_slow no_pixel 5 3 = Ok [].
Proof. repeat split. vm_compute. lia. Qed.

(** C4, amended: on a degenerate stack the run fails only when there is no
    frame, on the read of the reference frame; with a frame and no pixel
    the standard deviation is not a number and the run returns the empty
    list. *)
Theorem C4_degenerate_stack (stack : Np.ndarray3) (threshold : Q) (min_distance : Z) :
  T stack = 0 \/ Y stack * X stack = 0 ->
  detect_insertions_slow stack threshold min_distance
  = (if Nat.eqb (T stack) 0 then Raise IndexError else Ok [])
  /\ (T stack = 0 -> Np.getitem3 stack 0 = Raise IndexError)
  /\ (Y stack * X stack = 0 -> bg_std_of stack = Np.NaN).
Proof.
  intros Hdeg. split; [|split].
  - destruct (Nat.eqb (T stack) 0) eqn:E.
    + apply Nat.eqb_eq in E. now apply detect_no_frame.
    + apply Nat.eqb_neq in E. destruct Hdeg as [H|H]; [contradiction|].
      rewrite detect_run by lia. f_equal.
      apply flat_map_nil. intros t _.
      apply frame_events_none. now apply empty_frame_no_candidate.
  - intros E. now apply getitem3_no_frame.
  - intros E. unfold bg_std_of, Np.ravel, Np.cells2. simpl.
    replace (Np.all_cells (Y stack) (X stack)) with (@nil Np.cell); [reflexivity|].
    destruct (Np.all_cells (Y stack) (X stack)) as [|c l] eqn:Ec; [reflexivity|].
    assert (Hc : In c (Np.all_cells (Y stack) (X stack))) by (rewrite Ec; now left).
    apply in_all_cells in Hc. nia.
Qed.

Lemma C4_degenerate_stack_witness :
  (detect_insertions_slow no_frame 5 3 = Raise IndexError
   /\ (T no_frame = 0 -> Np.getitem3 no_frame 0 = Raise IndexError)
   /\ (Y no_frame * X no_frame = 0 -> bg_std_of no_frame = Np.NaN))
  /\ (detect_insertions_slow no_pixel 5 3 = Ok []
      /\ (T no_pixel = 0 -> Np.getitem3 no_pixel 0 = Raise IndexError)
      /\ (Y no_pixel * X no_pixel = 0 -> bg_std_of no_pixel = Np.NaN)).
Proof.
  split.
  - apply (@C4_degenerate_stack no_frame 5 3). left. reflexivity.
  - apply (@C4_degenerate_stack no_pixel 5 3). right. reflexivity.
Defined.

(** ** C5: frames of different dimensions *)










(** Frames of two and of three columns cannot be brought together: the
    Change Detector raises. *)
Example incompatible_frames_raise :
  change_detector Np.uint8 two_columns three_columns 5 Np.NaN = None.
Proof. reflexivity. Qed.

(** ** C6: a stack that does not change *)

(** C6: when every frame equals the frame before it and the multiplier is
    positive, the run produces no Event; with at least one frame in the
    stack it returns the empty list. *)
Theorem C6_static_stack_no_event (stack : Np.ndarray3) (threshold : Q) (min_distance : Z) :
  static stack -> (0 < threshold)%Q ->
  produced (detect_insertions_slow stack threshold min_distance) = []
  /\ (0 < T stack -> detect_insertions_slow stack threshold min_distance = Ok []).
Proof.
  intros Hst Hthr.
  assert (Hrun : 0 < T stack ->
                 detect_insertions_slow stack threshold min_distance = Ok []).
  { intros HT. rewrite detect_run by exact HT. f_equal.
    apply flat_map_nil. intros t Ht. apply in_seq in Ht.
    apply frame_events_none. apply static_no_candidate; auto. lia. }
  split; [|exact Hrun].
  destruct (Nat.eq_dec (T stack) 0) as [E|E].
  - now rewrite detect_no_frame.
  - now rewrite Hrun by lia.
Qed.

Lemma C6_static_stack_no_event_witness :
  static still /\ (0 < 5)%Q
  /\ produced (detect_insertions_slow still 5 3) = []
  /\ detect_insertions_slow still 5 3 = Ok [].
Proof.
  assert (Hst : static still).
  { intros t y x Ht Hy Hx.
    change (T still) with 3 in Ht. change (Y still) with 1 in Hy.
    change (X still) with 2 in Hx.
    assert (Ey : y = 0) by lia. assert (Ex : x = 0 \/ x = 1) by lia.
    assert (Et : t = 1 \/ t = 2) by lia.
    destruct Et as [-> | ->], Ex as [-> | ->]; subst y; reflexivity. }
  assert (Hthr : (0 < 5)%Q) by reflexivity.
  destruct (@C6_static_stack_no_event still 5 3 Hst Hthr) as [Hnone Hok].
  split; [exact Hst|]. split; [exact Hthr|]. split; [exact Hnone|].
  apply Hok. vm_compute. lia.
Defined.

(** ** C7: the order of the frames *)

(** C7: in the list a run returns the frame numbers never decrease, and no
    Event has frame 0. *)
Theorem C7_frames_nondecreasing (stack : Np.ndarray3) (threshold : Q) (min_distance : Z)
  (events : list Event) :
  detect_insertions_slow stack threshold min_distance = Ok events ->
  StronglySorted le (map frame events)
  /\ Forall (fun e => frame e <> 0) events.
Proof.
  intros H. apply detect_returns in H as [_ ->]. unfold range.
  destruct (@frames_in_order (frame_events stack threshold) 1 (T stack - 1)) as [Hs Hlb].
  - intros t e. apply frame_events_frame.
  - split; [exact Hs|].
    eapply Forall_impl; [|exact Hlb]. simpl. intros; lia.
Qed.

Lemma C7_frames_nondecreasing_witness :
  StronglySorted le (map frame [mkEvent 1 0 0 10; mkEvent 1 0 2 10])
  /\ Forall (fun e => frame e <> 0) [mkEvent 1 0 0 10; mkEvent 1 0 2 10].
Proof.
  apply (@C7_frames_nondecreasing ridge 7 3). vm_compute. reflexivity.
Defined.

(** ** C8: centroid and intensity *)

(** C8: the list a run returns holds, frame after frame and label after
    label, one Event for each component: its y and x are the means of the
    rows and of the columns of the cells of the component, truncated toward
    zero, and its intensity is the difference image read at that (y, x). *)
Theorem C8_centroid_and_intensity (stack : Np.ndarray3) (threshold : Q)
  (min_distance : Z) (events : list Event) :
  detect_insertions_slow stack threshold min_distance = Ok events ->
  events
  = flat_map
      (fun t =>
         map (fun i => centroid_event t (diff_at stack t)
                         (component (labeled_at stack threshold t) i))
             (range 1 (num_features_at stack threshold t + 1)))
      (range 1 (T stack)).
Proof.
  intros H. apply detect_returns in H as [_ ->].
  apply flat_map_ext. intros t. rewrite frame_events_map.
  apply map_ext_in. intros i Hi. apply in_seq in Hi.
  apply event_of_centroid. apply component_nonempty. lia.
Qed.

Lemma C8_centroid_and_intensity_witness :
  [mkEvent 1 0 1 0]
  = flat_map
      (fun t =>
         map (fun i => centroid_event t (diff_at horseshoe t)
                         (component (labeled_at horseshoe 5 t) i))
             (range 1 (num_features_at horseshoe 5 t + 1)))
      (range 1 (T horseshoe)).
Proof.
  apply (@C8_centroid_and_intensity horseshoe 5 3). vm_compute. reflexivity.
Defined.

(** On [horseshoe] the five candidate cells form one component; the mean
    row 3/5 is cut to 0, not rounded to 1, and the cell (0, 1) that is read
    is not a cell of the component. *)
Example horseshoe_centroid_outside :
  component (labeled_at horseshoe 5 1) 1 = [(0, 0); (0, 2); (1, 0); (1, 1); (1, 2)]
  /\ trunc_mean [0; 0; 1; 1; 1] = 0%Z
  /\ ~ In (0, 1) (component (labeled_at horseshoe 5 1) 1)
  /\ detect_insertions_slow horseshoe 5 3 = Ok [mkEvent 1 0 1 0].
Proof.
  repeat split. vm_compute. intuition discriminate.
Qed.

(** ** C9: the minimum distance *)

(** C9: the minimum-distance argument has no influence on what a run
    returns. *)
Theorem C9_min_distance_ignored (stack : Np.ndarray3) (threshold : Q)
  (min_distance min_distance' : Z) :
  detect_insertions_slow stack threshold min_distance
  = detect_insertions_slow stack threshold min_distance'.
Proof. reflexivity. Qed.

(** ** C10: the centroid is a cell of the frame *)

(** C10: every Event a run returns has 0 <= y < Y and 0 <= x < X, so the
    read of the difference image at (y, x) is in range, and every label of
    a frame pair has a cell, so the loop over the labels never skips. *)
Theorem C10_centroid_in_bounds (stack : Np.ndarray3) (threshold : Q)
  (min_distance : Z) (events : list Event) :
  detect_insertions_slow stack threshold min_distance = Ok events ->
  Forall (fun e => (0 <= y e < Z.of_nat (Y stack))%Z
                   /\ (0 <= x e < Z.of_nat (X stack))%Z
                   /\ Np.getitem2 (diff_at stack (frame e)) (y e) (x e) = Ok (intensity e))
         events
  /\ forall t i, 1 <= t < T stack -> 1 <= i <= num_features_at stack threshold t ->
       component (labeled_at stack threshold t) i <> [].
Proof.
  intros H. apply detect_returns in H as [_ ->]. split.
  - apply Forall_forall. intros e He.
    apply in_flat_map in He as (t & _ & He).
    apply frame_events_in in He as (i & Hi & ->).
    destruct (@centroid_in_range (component (labeled_at stack threshold t) i)
                (Y stack) (X stack)) as [Hy Hx].
    + now apply component_nonempty.
    + intros c Hc. apply component_in in Hc as [Hb _]. exact Hb.
    + cbn [event_of frame y x intensity]. repeat split; try apply Hy; try apply Hx.
      now rewrite getitem2_in_range.
  - intros t i _ Hi. now apply component_nonempty.
Qed.

Lemma C10_centroid_in_bounds_witness :
  Forall (fun e => (0 <= y e < Z.of_nat (Y horseshoe))%Z
                   /\ (0 <= x e < Z.of_nat (X horseshoe))%Z
                   /\ Np.getitem2 (diff_at horseshoe (frame e)) (y e) (x e)
                      = Ok (intensity e))
         [mkEvent 1 0 1 0]
  /\ forall t i, 1 <= t < T horseshoe -> 1 <= i <= num_features_at horseshoe 5 t ->
       component (labeled_at horseshoe 5 t) i <> [].
Proof.
  apply (@C10_centroid_in_bounds horseshoe 5 3). vm_compute. reflexivity.
Defined.

(** * Further properties of [detect_insertions_slow] *)

(** ** When the run raises, and where its events lie *)

(** X1: the run raises exactly when the stack has no frame, and the
    exception is the [IndexError] of the read of the reference frame; with
    a frame it returns a list. *)
Theorem detect_raises_iff_no_frame (stack : Np.ndarray3) (threshold : Q)
  (min_distance : Z) :
  (forall e, detect_insertions_slow stack threshold min_distance = Raise e
             <-> T stack = 0)
  /\ ((exists events, detect_insertions_slow stack threshold min_distance = Ok events)
      <-> 0 < T stack).
Proof.
  split.
  - intros e. split.
    + intros H. destruct (Nat.eq_dec (T stack) 0) as [E|E]; [exact E|].
      rewrite detect_run in H by lia. discriminate.
    + intros E. destruct e. now apply detect_no_frame.
  - split.
    + intros [events H]. now apply detect_returns in H.
    + intros HT. eexists. now apply detect_run.
Qed.

(** X2: every Event of a run has a frame number between 1 and T - 1. *)
Theorem events_frame_in_range (stack : Np.ndarray3) (threshold : Q)
  (min_distance : Z) (events : list Event) :
  detect_insertions_slow stack threshold min_distance = Ok events ->
  Forall (fun e => 1 <= frame e < T stack) events.
Proof.
  intros H. apply detect_returns in H as [_ ->].
  apply Forall_forall. intros e He.
  apply in_flat_map in He as (t & Ht & He).
  apply in_seq in Ht. apply frame_events_frame in He. lia.
Qed.

Lemma events_frame_in_range_witness :
  Forall (fun e => 1 <= frame e < T ridge) [mkEvent 1 0 0 10; mkEvent 1 0 2 10].
Proof.
  apply (@events_frame_in_range ridge 7 3). vm_compute. reflexivity.
Defined.

(** X3: a stack of one frame has no frame pair: the run returns the empty
    list, whatever the frame holds. *)
Theorem single_frame_no_event (stack : Np.ndarray3) (threshold : Q) (min_distance : Z) :
  T stack = 1 ->
  detect_insertions_slow stack threshold min_distance = Ok [].
Proof.
  intros E. rewrite detect_run by lia. now rewrite E.
Qed.

Lemma single_frame_no_event_witness :
  detect_insertions_slow one_frame 5 3 = Ok [].
Proof. apply (@single_frame_no_event one_frame 5 3). reflexivity. Defined.

(** X4: the run returns one Event for each feature of each frame pair:
    the length of its list is the sum of the numbers of features. *)
Theorem events_count (stack : Np.ndarray3) (threshold : Q) (min_distance : Z)
  (events : list Event) :
  detect_insertions_slow stack threshold min_distance = Ok events ->
  length events
  = list_sum (map (num_features_at stack threshold) (range 1 (T stack))).
Proof.
  intros H. apply detect_returns in H as [_ ->].
  induction (range 1 (T stack)) as [|t l IH]; simpl.
  - reflexivity.
  - rewrite length_app, IH, frame_events_map, length_map. unfold range.
    rewrite length_seq. lia.
Qed.

Lemma events_count_witness :
  length [mkEvent 1 0 0 10; mkEvent 1 0 2 10]
  = list_sum (map (num_features_at ridge 7) (range 1 (T ridge))).
Proof. apply (@events_count ridge 7 3). vm_compute. reflexivity. Defined.

(** ** Frame pairs are processed independently *)

Lemma filter_all {A : Type} (p : A -> bool) (l : list A) :
  (forall a, In a l -> p a = true) -> filter p l = l.
Proof.
  induction l as [|a l IH]; intros H; simpl; [reflexivity|].
  rewrite (H a) by now left. f_equal. apply IH. intros; apply H; now right.
Qed.

Lemma filter_frames (f : nat -> list Event) (p : nat -> bool) (l : list nat) :
  (forall t e, In e (f t) -> frame e = t) ->
  filter (fun e => p (frame e)) (flat_map f l) = flat_map f (filter p l).
Proof.
  intros Hf. induction l as [|t l IH]; simpl; [reflexivity|].
  rewrite filter_app, IH. destruct (p t) eqn:E; simpl.
  - f_equal. apply filter_all. intros e He. now rewrite (Hf t e He).
  - rewrite filter_none; [reflexivity|]. intros e He. now rewrite (Hf t e He).
Qed.

Lemma filter_seq_eq (t a n : nat) :
  a <= t < a + n -> filter (fun k => Nat.eqb k t) (seq a n) = [t].
Proof.
  intros Ht.
  replace n with ((t - a) + (1 + (a + n - t - 1))) by lia.
  rewrite seq_app, filter_app. simpl seq at 2. rewrite filter_none.
  - replace (a + (t - a)) with t by lia. simpl. rewrite Nat.eqb_refl.
    rewrite filter_none; [reflexivity|].
    intros k Hk. apply in_seq in Hk. apply Nat.eqb_neq. lia.
  - intros k Hk. apply in_seq in Hk. apply Nat.eqb_neq. lia.
Qed.

Lemma filter_seq_lt (n a m : nat) :
  a <= n <= a + m -> filter (fun k => Nat.ltb k n) (seq a m) = seq a (n - a).
Proof.
  intros Hn.
  replace m with ((n - a) + (a + m - n)) at 1 by lia.
  rewrite seq_app, filter_app, filter_all, filter_none.
  - apply app_nil_r.
  - intros k Hk. apply in_seq in Hk. apply Nat.ltb_ge. lia.
  - intros k Hk. apply in_seq in Hk. apply Nat.ltb_lt. lia.
Qed.

(** The events of frame [t] in the list a run returns. *)
Lemma events_of_frame (stack : Np.ndarray3) (threshold : Q) (min_distance : Z)
  (events : list Event) (t : nat) :
  detect_insertions_slow stack threshold min_distance = Ok events ->
  1 <= t < T stack ->
  filter (fun e => Nat.eqb (frame e) t) events = frame_events stack threshold t.
Proof.
  intros H Ht. apply detect_returns in H as [_ ->].
  rewrite (@filter_frames (frame_events stack threshold) (fun k => Nat.eqb k t)).
  - unfold range. rewrite filter_seq_eq by lia. simpl. apply app_nil_r.
  - intros k e. apply frame_events_frame.
Qed.

(** X5: the run on the first n frames of a stack returns the events of
    the whole run whose frame is below n, and these come first in the list
    of the whole run: later frames only append. *)
Theorem truncated_run_is_prefix (stack : Np.ndarray3) (threshold : Q)
  (min_distance : Z) (n : nat) (events : list Event) :
  0 < n <= T stack ->
  detect_insertions_slow stack threshold min_distance = Ok events ->
  detect_insertions_slow (truncate n stack) threshold min_distance
  = Ok (filter (fun e => Nat.ltb (frame e) n) events)
  /\ exists later,
       events = filter (fun e => Nat.ltb (frame e) n) events ++ later
       /\ Forall (fun e => n <= frame e) later.
Proof.
  intros Hn H. apply detect_returns in H as [_ ->].
  assert (Hf : forall t e, In e (frame_events stack threshold t) -> frame e = t)
    by (intros t e; apply frame_events_frame).
  rewrite (@filter_frames (frame_events stack threshold) (fun k => Nat.ltb k n) _ Hf).
  unfold range. rewrite filter_seq_lt by lia. split.
  - rewrite detect_run by (change (T (truncate n stack)) with n; lia). reflexivity.
  - exists (flat_map (frame_events stack threshold) (seq n (T stack - n))). split.
    + rewrite <- flat_map_app. f_equal.
      replace (T stack - 1) with ((n - 1) + (T stack - n)) by lia.
      rewrite seq_app. f_equal. f_equal. lia.
    + apply Forall_forall. intros e He.
      apply in_flat_map in He as (t & Ht & He).
      apply in_seq in Ht. apply Hf in He. lia.
Qed.

Lemma truncated_run_is_prefix_witness :
  detect_insertions_slow (truncate 2 (scenario_A Np.uint8)) 5 3
  = Ok (filter (fun e => Nat.ltb (frame e) 2) [mkEvent 2 2 2 100])
  /\ exists later,
       [mkEvent 2 2 2 100]
       = filter (fun e => Nat.ltb (frame e) 2) [mkEvent 2 2 2 100] ++ later
       /\ Forall (fun e => 2 <= frame e) later.
Proof.
  apply (@truncated_run_is_prefix (scenario_A Np.uint8) 5 3 2).
  - vm_compute. lia.
  - vm_compute. reflexivity.
Defined.

Lemma label_events_ext (t : nat) (diff diff' : Np.ndarray2 Z) (labeled : Np.ndarray2 nat)
  (i : nat) :
  (forall y x, y < fst (Np.shape2 labeled) -> x < snd (Np.shape2 labeled) ->
     Np.data2 diff y x = Np.data2 diff' y x) ->
  label_events t diff labeled i = label_events t diff' labeled i.
Proof.
  intros Hd. unfold label_events.
  destruct (component labeled i) as [|c comp] eqn:E; [reflexivity|].
  destruct (@centroid_in_range (c :: comp) (fst (Np.shape2 labeled)) (snd (Np.shape2 labeled)))
    as [Hy Hx]; [discriminate | |].
  - intros d Hd'. rewrite <- E in Hd'. now apply component_in in Hd'.
  - unfold event_of. cbv zeta. rewrite Hd by lia. reflexivity.
Qed.

Lemma frame_events_ext (stack stack' : Np.ndarray3) (threshold : Q) (t : nat) :
  Np.dt3 stack = Np.dt3 stack' -> Y stack = Y stack' -> X stack = X stack' ->
  same_frame stack stack' 0 -> same_frame stack stack' (t - 1) ->
  same_frame stack stack' t ->
  frame_events stack threshold t = frame_events stack' threshold t.
Proof.
  intros Hdt HY HX H0 Hp Hc.
  assert (Hstd : bg_std_of stack = bg_std_of stack').
  { unfold bg_std_of. f_equal. unfold Np.ravel, Np.cells2, frame_at. simpl.
    rewrite <- HY, <- HX. apply map_ext_in. intros c Hin.
    apply in_all_cells in Hin as [Hy Hx]. unfold Np.at2. simpl. now apply H0. }
  assert (Hdiff : forall y x, y < Y stack -> x < X stack ->
            Np.data2 (diff_at stack t) y x = Np.data2 (diff_at stack' t) y x).
  { intros y x Hy Hx. unfold diff_at, Np.sub, frame_at. simpl.
    now rewrite Hdt, (Hp y x Hy Hx), (Hc y x Hy Hx). }
  assert (Hfg : Ndimage.foreground (candidates_at stack threshold t)
                = Ndimage.foreground (candidates_at stack' threshold t)).
  { unfold Ndimage.foreground, Np.cells2. rewrite !candidates_shape. simpl.
    rewrite <- HY, <- HX. apply filter_ext_in. intros c Hin.
    apply in_all_cells in Hin as [Hy Hx].
    change (Np.gt (Np.data2 (diff_at stack t) (fst c) (snd c))
                  (Np.mul threshold (bg_std_of stack))
            = Np.gt (Np.data2 (diff_at stack' t) (fst c) (snd c))
                    (Np.mul threshold (bg_std_of stack'))).
    now rewrite Hstd, (Hdiff _ _ Hy Hx). }
  assert (Hlab : Ndimage.label (candidates_at stack threshold t)
                 = Ndimage.label (candidates_at stack' threshold t)).
  { unfold Ndimage.label, Ndimage.features. rewrite Hfg, !candidates_shape.
    now rewrite HY, HX. }
  unfold frame_events, labeled_at, num_features_at. rewrite Hlab.
  apply flat_map_ext. intros i. apply label_events_ext.
  intros y x Hy Hx. apply Hdiff.
  - rewrite HY. exact Hy.
  - rewrite HX. exact Hx.
Qed.

(** X6: the events of frame t depend on the frames 0, t - 1 and t only:
    two stacks of one dtype and frame size that agree on these three frames
    get the same events at frame t, whatever their other frames hold. *)
Theorem frame_pair_locality (stack stack' : Np.ndarray3) (threshold : Q)
  (min_distance min_distance' : Z) (events events' : list Event) (t : nat) :
  Np.dt3 stack = Np.dt3 stack' -> Y stack = Y stack' -> X stack = X stack' ->
  same_frame stack stack' 0 -> same_frame stack stack' (t - 1) ->
  same_frame stack stack' t ->
  1 <= t < T stack -> t < T stack' ->
  detect_insertions_slow stack threshold min_distance = Ok events ->
  detect_insertions_slow stack' threshold min_distance' = Ok events' ->
  filter (fun e => Nat.eqb (frame e) t) events
  = filter (fun e => Nat.eqb (frame e) t) events'.
Proof.
  intros Hdt HY HX H0 Hp Hc Ht Ht' H H'.
  rewrite (events_of_frame _ _ _ H) by exact Ht.
  rewrite (events_of_frame _ _ _ H') by lia.
  now apply frame_events_ext.
Qed.

Lemma frame_pair_locality_witness :
  filter (fun e => Nat.eqb (frame e) 1) [mkEvent 1 0 0 10; mkEvent 1 0 2 10]
  = filter (fun e => Nat.eqb (frame e) 1)
      [mkEvent 1 0 0 10; mkEvent 1 0 2 10; mkEvent 2 0 1 249].
Proof.
  assert (Hsame : forall t, t < 2 -> same_frame ridge ridge_longer t).
  { intros t Ht y x Hy Hx.
    change (Y ridge) with 1 in Hy. change (X ridge) with 4 in Hx.
    assert (Ey : y = 0) by lia. subst y.
    destruct t as [|[|t]]; [ | | lia];
      do 4 (destruct x as [|x]; [reflexivity|]); lia. }
  apply (@frame_pair_locality ridge ridge_longer 7 3 3).
  - reflexivity.
  - reflexivity.
  - reflexivity.
  - apply Hsame. lia.
  - apply Hsame. simpl. lia.
  - apply Hsame. lia.
  - vm_compute. lia.
  - vm_compute. lia.
  - vm_compute. reflexivity.
  - vm_compute. reflexivity.
Defined.

(** ** The candidate mask *)

Lemma ravel_nonempty (stack : Np.ndarray3) (t : nat) :
  0 < Y stack * X stack -> Np.ravel (frame_at stack t) <> [].
Proof.
  intros H E.
  assert (Hin : In (0, 0) (Np.cells2 (frame_at stack t))).
  { apply in_all_cells. simpl. nia. }
  unfold Np.ravel in E. apply map_eq_nil in E. rewrite E in Hin. destruct Hin.
Qed.

Lemma bg_std_of_frame (stack : Np.ndarray3) :
  0 < Y stack * X stack ->
  bg_std_of stack = Np.Rad 1 (Np.Qvar (Np.ravel (frame_at stack 0))).
Proof.
  intros H. unfold bg_std_of, Np.std.
  pose proof (ravel_nonempty stack 0 H) as Hne.
  destruct (Np.ravel (frame_at stack 0)); [congruence | reflexivity].
Qed.

(** The candidate test, over the reals. *)
Lemma candidates_real_spec (stack : Np.ndarray3) (threshold : Q) (t : nat)
  (c : Np.cell) :
  0 < Y stack * X stack ->
  (Np.at2 (candidates_at stack threshold t) c = true
   <-> (IZR (Np.at2 (diff_at stack t) c)
        > Q2R threshold * sqrt (Q2R (Np.Qvar (Np.ravel (frame_at stack 0)))))%R).
Proof.
  intros H.
  change (Np.at2 (candidates_at stack threshold t) c)
    with (Np.gt (Np.at2 (diff_at stack t) c) (Np.mul threshold (bg_std_of stack))).
  rewrite bg_std_of_frame by exact H. simpl Np.mul.
  rewrite gt_spec by apply Qvar_nonneg.
  unfold toR. rewrite Q2R_mult.
  replace (Q2R 1) with 1%R by (unfold Q2R; simpl; field).
  now rewrite Rmult_1_r.
Qed.

(** X8: with a multiplier that is not negative, every candidate cell has a
    positive difference. *)
Theorem candidate_has_positive_difference (stack : Np.ndarray3) (threshold : Q)
  (t : nat) (c : Np.cell) :
  (0 <= threshold)%Q ->
  Np.at2 (candidates_at stack threshold t) c = true ->
  (0 < Np.at2 (diff_at stack t) c)%Z.
Proof.
  intros Hthr.
  change (Np.at2 (candidates_at stack threshold t) c)
    with (Np.gt (Np.at2 (diff_at stack t) c) (Np.mul threshold (bg_std_of stack))).
  pose proof (bg_std_wf stack) as W.
  destruct (bg_std_of stack) as [|k v]; simpl Np.mul; [discriminate|].
  destruct W as [Hk _]. unfold Np.gt.
  assert (E : Qle_bool 0 (threshold * k) = true)
    by (apply Qle_bool_iff; now apply Qmult_le_0_compat).
  rewrite E. intros H. apply andb_true_iff in H as [H _]. now apply Z.ltb_lt.
Qed.

Lemma candidate_has_positive_difference_witness :
  (0 < Np.at2 (diff_at ridge 1) (0%nat, 2%nat))%Z.
Proof.
  apply (@candidate_has_positive_difference ridge 7 1 (0, 2)).
  - discriminate.
  - reflexivity.
Defined.

Lemma Qsum_zero (l : list Q) : (forall q, In q l -> q == 0)%Q -> (Np.Qsum l == 0)%Q.
Proof.
  induction l as [|q l IH]; intros H; simpl; [reflexivity|].
  rewrite (H q) by now left. rewrite IH by (intros; apply H; now right).
  reflexivity.
Qed.

Lemma Qsum_constant (v : Z) (l : list Z) :
  (forall z, In z l -> z = v) ->
  (Np.Qsum (map inject_Z l) == inject_Z v * inject_Z (Z.of_nat (length l)))%Q.
Proof.
  induction l as [|z l IH]; intros H.
  - simpl. ring.
  - cbn [map Np.Qsum fold_right length]. fold (Np.Qsum (map inject_Z l)).
    rewrite IH by (intros; apply H; now right).
    rewrite (H z) by now left.
    rewrite Nat2Z.inj_succ. unfold Z.succ. rewrite inject_Z_plus. ring.
Qed.

(** The variance of a constant sample is zero. *)
Lemma Qvar_constant (v : Z) (l : list Z) :
  l <> [] -> (forall z, In z l -> z = v) -> (Np.Qvar l == 0)%Q.
Proof.
  intros Hne H. unfold Np.Qvar.
  assert (Hlen : ~ (inject_Z (Z.of_nat (length l)) == 0)%Q).
  { intros E. apply (inject_Z_injective _ 0%Z) in E.
    destruct l; [congruence | simpl in E; discriminate]. }
  assert (Hm : (Np.Qmean (map inject_Z l) == inject_Z v)%Q).
  { unfold Np.Qmean, Np.Qlen. rewrite length_map, Qsum_constant by exact H.
    field. exact Hlen. }
  unfold Np.Qmean at 1. rewrite Qsum_zero.
  - unfold Qdiv. ring.
  - intros q Hq. apply in_map_iff in Hq as (z & <- & Hz).
    rewrite (H z Hz), Hm. ring.
Qed.

(** Over a flat frame 0 the bound is zero. *)
Lemma flat_candidates_spec (stack : Np.ndarray3) (threshold : Q) (t : nat)
  (v : Z) (c : Np.cell) :
  0 < Y stack * X stack -> flat_reference stack v ->
  (Np.at2 (candidates_at stack threshold t) c = true
   <-> (0 < Np.at2 (diff_at stack t) c)%Z).
Proof.
  intros Hsize Hflat. rewrite candidates_real_spec by exact Hsize.
  assert (Hv : (Np.Qvar (Np.ravel (frame_at stack 0)) == 0)%Q).
  { apply Qvar_constant with v; [now apply ravel_nonempty|].
    intros z Hz. unfold Np.ravel in Hz. apply in_map_iff in Hz as (d & <- & Hd).
    apply in_all_cells in Hd as [Hy Hx]. unfold Np.at2. simpl. now apply Hflat. }
  rewrite (Qeq_eqR _ _ Hv).
  replace (Q2R 0) with 0%R by (unfold Q2R; simpl; field).
  rewrite sqrt_0, Rmult_0_r. split.
  - intros H. apply lt_IZR. exact H.
  - intros H. apply IZR_lt in H. exact H.
Qed.

(** X9: when frame 0 holds one value v everywhere and |v| * Y * X is
    below 2^53, the range in which the binary64 mean and standard deviation
    numpy computes for the frame are exact, the standard deviation is 0 and
    the bound is zero for every finite multiplier: a cell is a candidate
    exactly when its difference is positive. *)
Theorem flat_reference_candidates (stack : Np.ndarray3) (threshold : Q) (t : nat)
  (v : Z) (c : Np.cell) :
  0 < Y stack * X stack -> flat_reference stack v ->
  (Z.abs v * Z.of_nat (Y stack * X stack) < 2 ^ 53)%Z ->
  (Np.at2 (candidates_at stack threshold t) c = true
   <-> (0 < Np.at2 (diff_at stack t) c)%Z).
Proof. intros Hsize Hflat _. now apply flat_candidates_spec with v. Qed.

Lemma flat_reference_candidates_witness :
  Np.at2 (candidates_at dimming 1000 1) (0, 0) = true
  <-> (0 < Np.at2 (diff_at dimming 1) (0%nat, 0%nat))%Z.
Proof.
  apply (@flat_reference_candidates dimming 1000 1 5 (0, 0)).
  - vm_compute. lia.
  - intros y x Hy Hx.
    change (Y dimming) with 1 in Hy. change (X dimming) with 2 in Hx.
    assert (Ey : y = 0) by lia. subst y.
    do 2 (destruct x as [|x]; [reflexivity|]). lia.
  - vm_compute. reflexivity.
Defined.

(** ** The dtype of the differences *)

Lemma wrap_in_dtype (dt : Np.dtype) (z : Z) : in_dtype dt (Np.wrap dt z).
Proof.
  destruct dt; simpl; try exact I;
    match goal with
    | |- context [(?a mod ?m)%Z] =>
        pose proof (Z.mod_pos_bound a m ltac:(lia)); lia
    end.
Qed.

(** X10: the intensity of every Event is a value of the dtype of the
    stack; on an unsigned stack no Event has a negative intensity. *)
Theorem events_intensity_in_dtype (stack : Np.ndarray3) (threshold : Q)
  (min_distance : Z) (events : list Event) :
  detect_insertions_slow stack threshold min_distance = Ok events ->
  Forall (fun e => in_dtype (Np.dt3 stack) (intensity e)) events
  /\ (unsigned (Np.dt3 stack) = true -> Forall (fun e => (0 <= intensity e)%Z) events).
Proof.
  intros H. apply detect_returns in H as [_ ->].
  assert (G : Forall (fun e => in_dtype (Np.dt3 stack) (intensity e))
                (flat_map (frame_events stack threshold) (range 1 (T stack)))).
  { apply Forall_forall. intros e He.
    apply in_flat_map in He as (t & _ & He).
    apply frame_events_in in He as (i & _ & ->).
    apply wrap_in_dtype. }
  split; [exact G|].
  intros Hu. eapply Forall_impl; [|exact G]. simpl.
  intros e He. destruct (Np.dt3 stack); simpl in *; try discriminate; lia.
Qed.

Lemma events_intensity_in_dtype_witness :
  Forall (fun e => in_dtype (Np.dt3 ridge_longer) (intensity e))
    [mkEvent 1 0 0 10; mkEvent 1 0 2 10; mkEvent 2 0 1 249]
  /\ (unsigned (Np.dt3 ridge_longer) = true ->
      Forall (fun e => (0 <= intensity e)%Z)
        [mkEvent 1 0 0 10; mkEvent 1 0 2 10; mkEvent 2 0 1 249]).
Proof.
  apply (@events_intensity_in_dtype ridge_longer 7 3). vm_compute. reflexivity.
Defined.

Lemma unsigned_wrap_positive (dt : Np.dtype) (a b : Z) :
  unsigned dt = true -> in_dtype dt a -> in_dtype dt b ->
  ((0 < Np.wrap dt (a - b))%Z <-> a <> b)
  /\ ((a < b)%Z -> Np.wrap dt (a - b) = (a - b + 2 ^ Np.bits dt)%Z).
Proof.
  intros Hu Ha Hb.
  assert (G : forall m, (0 <= a < m)%Z -> (0 <= b < m)%Z ->
            ((0 < (a - b) mod m)%Z <-> a <> b)
            /\ ((a < b)%Z -> ((a - b) mod m = a - b + m)%Z)).
  { intros m Ham Hbm.
    assert (Hlt : (a < b)%Z -> ((a - b) mod m = a - b + m)%Z).
    { intros Hab. rewrite <- (Z.mod_add (a - b) 1 m) by lia.
      rewrite Z.mul_1_l. apply Z.mod_small. lia. }
    split; [|exact Hlt]. split.
    - intros H E. subst b. rewrite Z.sub_diag, Z.mod_0_l in H; lia.
    - intros Hne. destruct (Z.lt_trichotomy a b) as [L|[E|L]]; [|contradiction|].
      + rewrite Hlt by exact L. lia.
      + rewrite Z.mod_small; lia. }
  destruct dt; simpl in Hu; try discriminate; simpl in Ha, Hb |- *; now apply G.
Qed.

(** X11: on an unsigned stack whose frame 0 holds one value v everywhere,
    with v * Y * X below 2^53 (where numpy's binary64 standard deviation of
    the frame is exactly 0), a cell whose sample changes between two frames
    is a candidate whether it got brighter or dimmer, for every finite
    multiplier: a decrease wraps around to a positive difference. *)
Theorem unsigned_change_is_candidate (stack : Np.ndarray3) (threshold : Q)
  (t y0 x0 : nat) (v : Z) :
  unsigned (Np.dt3 stack) = true ->
  0 < Y stack * X stack -> flat_reference stack v ->
  (Z.abs v * Z.of_nat (Y stack * X stack) < 2 ^ 53)%Z ->
  in_dtype (Np.dt3 stack) (Np.data3 stack t y0 x0) ->
  in_dtype (Np.dt3 stack) (Np.data3 stack (t - 1) y0 x0) ->
  (Np.at2 (candidates_at stack threshold t) (y0, x0) = true
   <-> Np.data3 stack t y0 x0 <> Np.data3 stack (t - 1) y0 x0)
  /\ ((Np.data3 stack t y0 x0 < Np.data3 stack (t - 1) y0 x0)%Z ->
      Np.at2 (diff_at stack t) (y0, x0)
      = (Np.data3 stack t y0 x0 - Np.data3 stack (t - 1) y0 x0
         + 2 ^ Np.bits (Np.dt3 stack))%Z).
Proof.
  intros Hu Hsize Hflat _ Ha Hb.
  destruct (@unsigned_wrap_positive (Np.dt3 stack) _ _ Hu Ha Hb) as [Hpos Hwrap].
  split.
  - rewrite (@flat_candidates_spec stack threshold t v (y0, x0) Hsize Hflat).
    exact Hpos.
  - exact Hwrap.
Qed.

Lemma unsigned_change_is_candidate_witness :
  (Np.at2 (candidates_at dimming 1000 1) (0, 0) = true
   <-> Np.data3 dimming 1 0 0 <> Np.data3 dimming (1 - 1) 0 0)
  /\ ((Np.data3 dimming 1 0 0 < Np.data3 dimming (1 - 1) 0 0)%Z ->
      Np.at2 (diff_at dimming 1) (0, 0)
      = (Np.data3 dimming 1 0 0 - Np.data3 dimming (1 - 1) 0 0
         + 2 ^ Np.bits (Np.dt3 dimming))%Z).
Proof.
  apply (@unsigned_change_is_candidate dimming 1000 1 0 0 5).
  - reflexivity.
  - vm_compute. lia.
  - intros y x Hy Hx.
    change (Y dimming) with 1 in Hy. change (X dimming) with 2 in Hx.
    assert (Ey : y = 0) by lia. subst y.
    do 2 (destruct x as [|x]; [reflexivity|]). lia.
  - vm_compute. reflexivity.
  - vm_compute. split; [discriminate | reflexivity].
  - vm_compute. split; [discriminate | reflexivity].
Defined.

(** On [dimming] the pixel that goes from 5 to 3 is reported, with the
    intensity 254, even at the multiplier 1000. *)
Example dimming_pixel_reported :
  detect_insertions_slow dimming 1000 3 = Ok [mkEvent 1 0 0 254].
Proof. vm_compute. reflexivity. Qed.

(** ** Single-cell components *)

Lemma isolated_linked (fg : list Np.cell) (c d : Np.cell) :
  isolated fg c -> linked Ndimage.adjacent fg c d -> d = c.
Proof.
  intros [_ Hiso] H. induction H as [c Hc | c d e _ IH He Ha].
  - reflexivity.
  - rewrite (IH Hiso) in Ha. rewrite (Hiso e He) in Ha. discriminate.
Qed.

Lemma NoDup_single {A : Type} (a : A) (l : list A) :
  NoDup l -> In a l -> (forall b, In b l -> b = a) -> l = [a].
Proof.
  intros ND Hin Hall. destruct l as [|b l]; [destruct Hin|].
  assert (b = a) by (apply Hall; now left). subst b. f_equal.
  destruct l as [|b l]; [reflexivity|].
  assert (b = a) by (apply Hall; right; now left). subst b.
  inversion ND as [|? ? Hn _]. destruct Hn. now left.
Qed.

Lemma trunc_mean_single (k : nat) : trunc_mean [k] = Z.of_nat k.
Proof.
  unfold trunc_mean. simpl. rewrite Z.add_0_r. apply Z.quot_1_r.
Qed.

(** X12: a candidate cell with no candidate sharing an edge with it is a
    component of its own: the run reports an Event at exactly that cell,
    with the difference of that cell as intensity. *)
Theorem isolated_candidate_event (stack : Np.ndarray3) (threshold : Q)
  (min_distance : Z) (events : list Event) (t : nat) (c : Np.cell) :
  detect_insertions_slow stack threshold min_distance = Ok events ->
  1 <= t < T stack ->
  isolated (Ndimage.foreground (candidates_at stack threshold t)) c ->
  In (mkEvent t (Z.of_nat (fst c)) (Z.of_nat (snd c)) (Np.at2 (diff_at stack t) c))
     events.
Proof.
  intros H Ht Hiso. apply detect_returns in H as [_ ->].
  apply in_flat_map. exists t. split; [apply in_seq; lia|].
  pose proof Hiso as [Hc _].
  set (i := Np.at2 (labeled_at stack threshold t) c).
  assert (Hi : 1 <= i <= num_features_at stack threshold t)
    by now apply labeled_foreground.
  assert (Hcomp : component (labeled_at stack threshold t) i = [c]).
  { apply NoDup_single.
    - apply NoDup_filter, NoDup_all_cells.
    - apply component_in. split; [|reflexivity].
      now apply foreground_in in Hc as [Hb _].
    - intros d Hd. apply component_in in Hd as [_ Hd].
      assert (Hdfg : In d (Ndimage.foreground (candidates_at stack threshold t))).
      { apply labeled_background. fold (labeled_at stack threshold t). lia. }
      apply (isolated_linked Hiso).
      apply labeled_linked; [exact Hc | exact Hdfg|].
      fold (labeled_at stack threshold t). now rewrite Hd. }
  rewrite frame_events_map. apply in_map_iff. exists i. split.
  - rewrite Hcomp, event_of_centroid by discriminate.
    unfold centroid_event. cbn [map fst snd].
    rewrite !trunc_mean_single, !Nat2Z.id. now destruct c.
  - apply in_seq. lia.
Qed.

Lemma isolated_candidate_event_witness :
  In (mkEvent 1 (Z.of_nat (fst (1, 1))) (Z.of_nat (snd (1, 1)))
        (Np.at2 (diff_at corners 1) (1, 1)))
     [mkEvent 1 0 0 9; mkEvent 1 1 1 9].
Proof.
  apply (@isolated_candidate_event corners 5 3 _ 1 (1, 1)).
  - vm_compute. reflexivity.
  - vm_compute. lia.
  - split.
    + vm_compute. right. now left.
    + intros d Hd. vm_compute in Hd.
      destruct Hd as [<- | [<- | []]]; reflexivity.
Defined.

(** ** The order of the labels *)

Lemma sorted_app {A : Type} (R : A -> A -> Prop) (l1 l2 : list A) :
  StronglySorted R l1 -> StronglySorted R l2 ->
  (forall a b, In a l1 -> In b l2 -> R a b) ->
  StronglySorted R (l1 ++ l2).
Proof.
  intros H1 H2 H. induction H1 as [|a l1 H1 IH Ha]; simpl; [exact H2|].
  constructor.
  - apply IH. intros; apply H; auto. now right.
  - apply Forall_app; split; [exact Ha|].
    apply Forall_forall. intros b Hb. apply H; auto. now left.
Qed.

Lemma sorted_filter {A : Type} (R : A -> A -> Prop) (p : A -> bool) (l : list A) :
  StronglySorted R l -> StronglySorted R (filter p l).
Proof.
  induction 1 as [|a l Hs IH Ha]; simpl; [constructor|].
  destruct (p a); [|exact IH].
  constructor; [exact IH|].
  apply Forall_forall. intros b Hb. apply filter_In in Hb as [Hb _].
  rewrite Forall_forall in Ha. now apply Ha.
Qed.

Lemma all_cells_sorted (Y0 X0 : nat) : StronglySorted raster_lt (Np.all_cells Y0 X0).
Proof.
  unfold Np.all_cells.
  assert (Hrow : forall r a n, StronglySorted raster_lt (map (fun k => (r, k)) (seq a n))).
  { intros r a n; revert a; induction n as [|n IH]; intros a; simpl; constructor.
    - apply IH.
    - apply Forall_forall. intros c Hc. apply in_map_iff in Hc as (k & <- & Hk).
      apply in_seq in Hk. right. simpl. lia. }
  assert (G : forall a n,
            StronglySorted raster_lt
              (flat_map (fun r => map (fun k => (r, k)) (seq 0 X0)) (seq a n))
            /\ forall c, In c (flat_map (fun r => map (fun k => (r, k)) (seq 0 X0)) (seq a n))
                         -> a <= fst c).
  { intros a n; revert a; induction n as [|n IH]; intros a; simpl.
    - split; [constructor | intros c []].
    - destruct (IH (S a)) as [Hs Hlb]. split.
      + apply sorted_app; [apply Hrow | exact Hs |].
        intros c d Hc Hd. apply in_map_iff in Hc as (k & <- & _).
        apply Hlb in Hd. left. simpl. lia.
      + intros c Hc. apply in_app_iff in Hc as [Hc|Hc].
        * apply in_map_iff in Hc as (k & <- & _). simpl. lia.
        * apply Hlb in Hc. lia. }
  apply G.
Qed.

Lemma cell_eq_dec (c d : Np.cell) : {c = d} + {c <> d}.
Proof. decide equality; apply Nat.eq_dec. Qed.

Section Order.
Variable fg : list Np.cell.
Hypothesis fg_nodup : NoDup fg.

Lemma built_features found f :
  built fg found -> In f found -> exists seed, In seed fg /\ f = Ndimage.feature fg seed.
Proof.
  intros Hb Hf. apply (In_nth _ _ []) in Hf as (i & Hi & <-).
  destruct (built_seeds fg_nodup Hb Hi) as (seed & Hs & E & _).
  exists seed. now split.
Qed.

(** Two features of a scan that share a cell are one feature. *)
Lemma built_disjoint found a b c :
  built fg found -> a < length found -> b < length found ->
  In c (nth a found []) -> In c (nth b found []) -> a = b.
Proof.
  intros Hb Ha Hlb Hca Hcb.
  destruct (built_seeds fg_nodup Hb Ha) as (sa & Hsa & Ea & Fa).
  destruct (built_seeds fg_nodup Hb Hlb) as (sb & Hsb & Eb & Fb).
  rewrite Ea in Hca. rewrite Eb in Hcb.
  apply feature_spec in Hca; auto. apply feature_spec in Hcb; auto.
  assert (Lab : linked Ndimage.adjacent fg sa sb).
  { apply linked_trans with c; [exact Hca|].
    apply linked_sym; [apply adjacent_sym | exact Hcb]. }
  assert (Lba : linked Ndimage.adjacent fg sb sa)
    by (apply linked_sym; [apply adjacent_sym | exact Lab]).
  destruct (Nat.lt_trichotomy a b) as [L|[E|L]]; [|exact E|].
  - destruct Fb as (_ & _ & Fb). destruct (Fb a L).
    rewrite Ea. apply feature_spec; auto.
  - destruct Fa as (_ & _ & Fa). destruct (Fa b L).
    rewrite Eb. apply feature_spec; auto.
Qed.

Lemma scan_earlier todo found :
  incl todo fg -> StronglySorted raster_lt todo -> built fg found ->
  (forall c, In c fg -> ~ In c todo -> exists f, In f found /\ In c f) ->
  earlier found ->
  (forall i, i < length found -> forall d, In d todo ->
     exists c, In c (nth i found []) /\ raster_lt c d) ->
  earlier (Ndimage.scan fg todo found).
Proof.
  revert found; induction todo as [|s todo IH];
    intros found Hincl Hsorted Hb Hcov He Hbefore; simpl; [exact He|].
  assert (Hs : In s fg) by (apply Hincl; now left).
  assert (Ht : incl todo fg) by (intros d Hd; apply Hincl; now right).
  inversion Hsorted as [|? ? Hsorted' Hfirst]; subst.
  rewrite Forall_forall in Hfirst.
  destruct (existsb (Ndimage.mem s) found) eqn:E.
  - apply IH; auto.
    + intros c Hc Hn. destruct (cell_eq_dec c s) as [->|Hne].
      * now apply existsb_mem in E.
      * apply Hcov; [exact Hc|]. intros [Hin|Hin]; [congruence | contradiction].
    + intros i Hi d Hd. apply Hbefore; [exact Hi | now right].
  - assert (Hnew : forall d, In d (Ndimage.feature fg s) -> In d (s :: todo)).
    { intros d Hd. destruct (in_dec cell_eq_dec d (s :: todo)) as [Hin|Hn]; [exact Hin|].
      exfalso.
      assert (Hdfg : In d fg).
      { apply feature_spec in Hd; auto. eapply linked_in_r; eauto. }
      destruct (Hcov d Hdfg Hn) as (f & Hf & Hdf).
      assert (Hfeat : exists seed, In seed fg /\ f = Ndimage.feature fg seed)
        by (eapply built_features; eauto).
      destruct Hfeat as (seed & Hseed & ->).
      assert (Hsf : In s (Ndimage.feature fg seed)).
      { apply feature_spec; auto. apply feature_spec in Hdf; auto.
        apply feature_spec in Hd; auto.
        apply linked_trans with d; [exact Hdf|].
        apply linked_sym; [apply adjacent_sym | exact Hd]. }
      assert (Ex : existsb (Ndimage.mem s) found = true)
        by (apply existsb_mem; eauto).
      congruence. }
    apply IH; auto.
    + now constructor.
    + intros c Hc Hn. destruct (cell_eq_dec c s) as [->|Hne].
      * exists (Ndimage.feature fg s). split.
        -- apply in_or_app. right. now left.
        -- apply feature_spec; auto. now constructor.
      * destruct (Hcov c Hc) as (f & Hf & Hcf).
        -- intros [Hin|Hin]; [congruence | contradiction].
        -- exists f. split; [apply in_or_app; now left | exact Hcf].
    + intros i j Hij d Hd. rewrite length_app in Hij. simpl in Hij.
      rewrite app_nth1 by lia.
      destruct (Nat.eq_dec j (length found)) as [->|Hne].
      * rewrite app_nth2, Nat.sub_diag in Hd by lia. simpl in Hd.
        apply Hbefore; [lia | now apply Hnew].
      * rewrite app_nth1 in Hd by lia. apply (He i j); [lia | exact Hd].
    + intros i Hi d Hd. rewrite length_app in Hi. simpl in Hi.
      destruct (Nat.eq_dec i (length found)) as [->|Hne].
      * rewrite app_nth2, Nat.sub_diag by lia. simpl.
        exists s. split; [|now apply Hfirst].
        apply feature_spec; auto. now constructor.
      * rewrite app_nth1 by lia. apply Hbefore; [lia | now right].
Qed.
End Order.

Lemma raster_lt_trans (a b c : Np.cell) : raster_lt a b -> raster_lt b c -> raster_lt a c.
Proof. unfold raster_lt. lia. Qed.

Lemma features_earlier (mask : Np.ndarray2 bool) : earlier (Ndimage.features mask).
Proof.
  unfold Ndimage.features. apply scan_earlier.
  - apply foreground_nodup.
  - apply incl_refl.
  - apply sorted_filter, all_cells_sorted.
  - constructor.
  - intros c Hc Hn. contradiction.
  - intros i j Hij. simpl in Hij. lia.
  - intros i Hi. simpl in Hi. lia.
Qed.

(** The cells of a label are the cells of the feature of that number. *)
Lemma component_feature (mask : Np.ndarray2 bool) (i : nat) (c : Np.cell) :
  1 <= i <= snd (Ndimage.label mask) ->
  (In c (component (fst (Ndimage.label mask)) i)
   <-> In c (nth (i - 1) (Ndimage.features mask) [])).
Proof.
  intros Hi. rewrite num_features_length in Hi. split.
  - intros Hc. apply component_in in Hc as [_ Hc].
    rewrite labeled_at2 in Hc.
    destruct (label_of_pos _ _ Nat.lt_0_1 Hc) as [_ (_ & Hin & _)]; [lia | exact Hin].
  - intros Hc.
    assert (Hfeat : exists seed, In seed (Ndimage.foreground mask)
                      /\ nth (i - 1) (Ndimage.features mask) [] = Ndimage.feature (Ndimage.foreground mask) seed).
    { destruct (@built_seeds _ (foreground_nodup mask) _ (features_built mask) (i - 1))
        as (seed & Hs & E & _); [lia | eauto]. }
    destruct Hfeat as (seed & Hs & E).
    assert (Hfg : In c (Ndimage.foreground mask)).
    { rewrite E in Hc. apply feature_spec in Hc; auto using foreground_nodup.
      eapply linked_in_r; eauto. }
    apply component_in. split; [now apply foreground_in in Hfg as [Hb _]|].
    rewrite labeled_at2.
    destruct (label_of_cases c (Ndimage.features mask) 1) as [[_ Hno] | (k & Ek & Hk)].
    + destruct (Hno (nth (i - 1) (Ndimage.features mask) [])); [apply nth_In; lia | exact Hc].
    + pose proof Hk as (Hlt & Hin & _).
      assert (k = i - 1).
      { eapply built_disjoint; eauto using foreground_nodup, features_built. lia. }
      lia.
Qed.

(** X14: the labels follow the raster order: for two labels i < j of a
    mask, the first cell of the component of i comes before the first cell
    of the component of j in row-major order.  Hence the Events of one frame
    pair are listed in the raster order of the first cells of their
    components. *)
Theorem labels_in_raster_order (mask : Np.ndarray2 bool) (i j : nat) :
  1 <= i -> i < j -> j <= snd (Ndimage.label mask) ->
  exists ci li cj lj,
    component (fst (Ndimage.label mask)) i = ci :: li
    /\ component (fst (Ndimage.label mask)) j = cj :: lj
    /\ raster_lt ci cj.
Proof.
  intros Hi Hij Hj.
  assert (Hsorted : forall k, StronglySorted raster_lt (component (fst (Ndimage.label mask)) k))
    by (intros k; apply sorted_filter, all_cells_sorted).
  assert (Hne : forall k, 1 <= k <= snd (Ndimage.label mask) ->
                  component (fst (Ndimage.label mask)) k <> []).
  { intros k Hk Hnil. apply label_used in Hk as (seed & Hs & E).
    assert (Hin : In seed (component (fst (Ndimage.label mask)) k)).
    { apply component_in. split; [now apply foreground_in in Hs as [Hb _] | exact E]. }
    rewrite Hnil in Hin. destruct Hin. }
  destruct (component (fst (Ndimage.label mask)) i) as [|ci li] eqn:Ei;
    [destruct (Hne i); [lia | exact Ei]|].
  destruct (component (fst (Ndimage.label mask)) j) as [|cj lj] eqn:Ej;
    [destruct (Hne j); [lia | exact Ej]|].
  exists ci, li, cj, lj. split; [reflexivity|]. split; [reflexivity|].
  assert (Hcj : In cj (nth (j - 1) (Ndimage.features mask) [])).
  { apply component_feature; [lia|]. rewrite Ej. now left. }
  destruct (@features_earlier mask (i - 1) (j - 1)) with (d := cj) as (c & Hc & Hlt).
  - rewrite <- num_features_length. lia.
  - exact Hcj.
  - apply component_feature in Hc; [|lia].
    replace (i - 1 + 1) with i in Hc by lia.
    rewrite Ei in Hc. destruct Hc as [<-|Hc]; [exact Hlt|].
    pose proof (Hsorted i) as Hs. rewrite Ei in Hs.
    inversion Hs as [|? ? _ Hfirst]; subst. rewrite Forall_forall in Hfirst.
    apply raster_lt_trans with c; [now apply Hfirst | exact Hlt].
Qed.

Lemma labels_in_raster_order_witness :
  exists ci li cj lj,
    component (fst (Ndimage.label (candidates_at spikes 5 1))) 1 = ci :: li
    /\ component (fst (Ndimage.label (candidates_at spikes 5 1))) 2 = cj :: lj
    /\ raster_lt ci cj.
Proof.
  apply (@labels_in_raster_order (candidates_at spikes 5 1) 1 2).
  - lia.
  - lia.
  - vm_compute. lia.
Defined.

(** On [spikes] the two bright cells give two Events, the one of the
    cell (0, 0) first. *)
Example spikes_events :
  detect_insertions_slow spikes 5 3 = Ok [mkEvent 1 0 0 50; mkEvent 1 1 2 50].
Proof. vm_compute. reflexivity. Qed.

(** * The script *)

Section ScriptFacts.
Import String.StringSyntax.
Local Open Scope string_scope.
Local Infix "+++" := String.append (at level 60, right associativity).

(** X15: when the input path does not exist, [main] exits with the message
    "Input file not found: <input>" before anything else: nothing is
    printed and no file is created or changed. *)
Theorem main_missing_input (a : Script.args) (w : Script.world) :
  Script.files w (Script.input a) = None ->
  Script.main a w
  = (inl (Script.SystemExit ("Input file not found: " +++ Script.input a)), w).
Proof.
  intros H. unfold Script.main, Script.and_then, Script.os_path_exists.
  rewrite H. reflexivity.
Qed.

Lemma main_missing_input_witness :
  Script.main (Script.default_args "absent.tif") Script.disk
  = (inl (Script.SystemExit ("Input file not found: " +++ "absent.tif")), Script.disk).
Proof.
  apply (@main_missing_input (Script.default_args "absent.tif") Script.disk).
  reflexivity.
Defined.

(** X16: when the input is a TIFF stack with at least one frame and the
    output file can be written, [main] returns; afterwards the output path
    holds the table of exactly the Events the detector returns on that
    stack, in their order, every other path is as before, and the two counts
    printed, "Detected n events." and "Saved n events to <output>", are the
    number of those Events. *)
Theorem main_saves_detected_events (a : Script.args) (w : Script.world)
  (stack : Np.ndarray3) :
  Script.files w (Script.input a) = Some (Script.Tiff stack) ->
  0 < T stack ->
  Script.writing_at w (Script.output a) = Script.Completes ->
  exists events w',
    detect_insertions_slow stack (Script.threshold a) (Script.min_distance a) = Ok events
    /\ Script.main a w = (inr tt, w')
    /\ Script.files w' (Script.output a)
       = Some (Script.Csv (Script.columns (Script.pd_DataFrame events)) events)
    /\ (forall p, String.eqb p (Script.output a) = false ->
          Script.files w' p = Script.files w p)
    /\ Script.stdout w'
       = Script.stdout w
         ++ ["Loading stack from " +++ Script.input a +++ "...";
             "Stack shape: " +++ Script.shape_str (Np.shape3 stack);
             "Detecting insertion events (slow method)...";
             "Detected " +++ Script.dec (length events) +++ " events.";
             "Saved " +++ Script.dec (length events) +++ " events to "
               +++ Script.output a].
Proof.
  intros Hin HT Hout.
  exists (flat_map (frame_events stack (Script.threshold a)) (range 1 (T stack))).
  eexists. split; [now apply detect_run|].
  unfold Script.main, Script.and_then, Script.os_path_exists, Script.load_tiff_stack,
    Script.print, Script.save_events_to_csv, Script.to_csv, Script.and_then.
  rewrite Hin. cbn [negb Script.files Script.stdout Script.writing_at].
  rewrite Hin. rewrite detect_run by exact HT.
  cbn [Script.lift Script.ret Script.files Script.stdout Script.writing_at
       Script.rows Script.pd_DataFrame].
  rewrite Hout. unfold Script.store.
  cbn [Script.files Script.stdout Script.writing_at].
  split; [reflexivity|].
  cbn [Script.files Script.stdout]. rewrite String.eqb_refl.
  split; [reflexivity|]. split.
  - intros p Hp. now rewrite Hp.
  - rewrite <- !app_assoc. reflexivity.
Qed.

Lemma main_saves_detected_events_witness :
  exists events w',
    detect_insertions_slow (scenario_A Np.uint16) 5 3 = Ok events
    /\ Script.main (Script.default_args "movie.tif") Script.disk = (inr tt, w')
    /\ Script.files w' "events.csv"
       = Some (Script.Csv (Script.columns (Script.pd_DataFrame events)) events)
    /\ (forall p, String.eqb p "events.csv" = false ->
          Script.files w' p = Script.files Script.disk p)
    /\ Script.stdout w'
       = Script.stdout Script.disk
         ++ ["Loading stack from " +++ "movie.tif" +++ "...";
             "Stack shape: " +++ Script.shape_str (Np.shape3 (scenario_A Np.uint16));
             "Detecting insertion events (slow method)...";
             "Detected " +++ Script.dec (length events) +++ " events.";
             "Saved " +++ Script.dec (length events) +++ " events to "
               +++ "events.csv"].
Proof.
  apply (@main_saves_detected_events (Script.default_args "movie.tif") Script.disk
           (scenario_A Np.uint16)).
  - reflexivity.
  - vm_compute. lia.
  - reflexivity.
Defined.

(** X19: when the input is a TIFF stack with at least one frame and the
    output file cannot be written, the [OSError] of [DataFrame.to_csv]
    leaves [main]: the detection has run and its count is printed, the line
    "Saved ..." is not, and no path other than the output path is touched;
    the output path itself is as before when the file could not be opened,
    and holds a file cut short, not the table, when a write failed. *)
Theorem main_output_not_written (a : Script.args) (w : Script.world)
  (stack : Np.ndarray3) :
  Script.files w (Script.input a) = Some (Script.Tiff stack) ->
  0 < T stack ->
  Script.writing_at w (Script.output a) <> Script.Completes ->
  exists events w',
    detect_insertions_slow stack (Script.threshold a) (Script.min_distance a) = Ok events
    /\ Script.main a w = (inl Script.OSError, w')
    /\ (forall p, String.eqb p (Script.output a) = false ->
          Script.files w' p = Script.files w p)
    /\ (Script.writing_at w (Script.output a) = Script.Refused ->
          Script.files w' = Script.files w)
    /\ (Script.writing_at w (Script.output a) = Script.Interrupted ->
          Script.files w' (Script.output a) = Some Script.Other)
    /\ Script.stdout w'
       = Script.stdout w
         ++ ["Loading stack from " +++ Script.input a +++ "...";
             "Stack shape: " +++ Script.shape_str (Np.shape3 stack);
             "Detecting insertion events (slow method)...";
             "Detected " +++ Script.dec (length events) +++ " events."].
Proof.
  intros Hin HT Hout.
  exists (flat_map (frame_events stack (Script.threshold a)) (range 1 (T stack))).
  unfold Script.main, Script.and_then, Script.os_path_exists, Script.load_tiff_stack,
    Script.print, Script.save_events_to_csv, Script.to_csv, Script.and_then.
  rewrite Hin. cbn [negb Script.files Script.stdout Script.writing_at].
  rewrite Hin. rewrite detect_run by exact HT.
  cbn [Script.lift Script.ret Script.files Script.stdout Script.writing_at
       Script.rows Script.pd_DataFrame].
  destruct (Script.writing_at w (Script.output a)) eqn:E.
  - now destruct Hout.
  - eexists. split; [reflexivity|].
    split; [reflexivity|]. cbn [Script.files Script.stdout].
    split; [reflexivity|]. split; [reflexivity|]. split; [discriminate|].
    rewrite <- !app_assoc. reflexivity.
  - eexists. split; [reflexivity|].
    split; [reflexivity|]. unfold Script.store. cbn [Script.files Script.stdout].
    split; [intros p Hp; now rewrite Hp|]. split; [discriminate|].
    split; [intros _; now rewrite String.eqb_refl|].
    rewrite <- !app_assoc. reflexivity.
Qed.

Lemma main_output_not_written_witness :
  exists events w',
    detect_insertions_slow (scenario_A Np.uint16) 5 3 = Ok events
    /\ Script.main (Script.mkArgs "movie.tif" "absent/events.csv" 5 3) Script.disk
       = (inl Script.OSError, w')
    /\ (forall p, String.eqb p "absent/events.csv" = false ->
          Script.files w' p = Script.files Script.disk p)
    /\ (Script.writing_at Script.disk "absent/events.csv" = Script.Refused ->
          Script.files w' = Script.files Script.disk)
    /\ (Script.writing_at Script.disk "absent/events.csv" = Script.Interrupted ->
          Script.files w' "absent/events.csv" = Some Script.Other)
    /\ Script.stdout w'
       = Script.stdout Script.disk
         ++ ["Loading stack from " +++ "movie.tif" +++ "...";
             "Stack shape: " +++ Script.shape_str (Np.shape3 (scenario_A Np.uint16));
             "Detecting insertion events (slow method)...";
             "Detected " +++ Script.dec (length events) +++ " events."].
Proof.
  apply (@main_output_not_written (Script.mkArgs "movie.tif" "absent/events.csv" 5 3)
           Script.disk (scenario_A Np.uint16)).
  - reflexivity.
  - vm_compute. lia.
  - vm_compute. discriminate.
Defined.

(** X17: when the input is a TIFF stack with no frame, the IndexError of
    the detector leaves [main]: the count of Events is never printed and no
    file is created or changed. *)
Theorem main_empty_stack_raises (a : Script.args) (w : Script.world)
  (stack : Np.ndarray3) :
  Script.files w (Script.input a) = Some (Script.Tiff stack) ->
  T stack = 0 ->
  exists w',
    Script.main a w = (inl (Script.Uncaught IndexError), w')
    /\ Script.files w' = Script.files w
    /\ Script.stdout w'
       = Script.stdout w
         ++ ["Loading stack from " +++ Script.input a +++ "...";
             "Stack shape: " +++ Script.shape_str (Np.shape3 stack);
             "Detecting insertion events (slow method)..."].
Proof.
  intros Hin HT. eexists.
  unfold Script.main, Script.and_then, Script.os_path_exists, Script.load_tiff_stack,
    Script.print.
  rewrite Hin. cbn [negb Script.files Script.stdout].
  rewrite Hin. rewrite detect_no_frame by exact HT.
  cbn [Script.lift Script.raise Script.files Script.stdout].
  split; [reflexivity|]. cbn [Script.files Script.stdout].
  split; [reflexivity|]. rewrite <- !app_assoc. reflexivity.
Qed.

Lemma main_empty_stack_raises_witness :
  exists w',
    Script.main (Script.default_args "empty.tif") Script.empty_disk
    = (inl (Script.Uncaught IndexError), w')
    /\ Script.files w' = Script.files Script.empty_disk
    /\ Script.stdout w'
       = Script.stdout Script.empty_disk
         ++ ["Loading stack from " +++ "empty.tif" +++ "...";
             "Stack shape: " +++ Script.shape_str (Np.shape3 no_frame);
             "Detecting insertion events (slow method)..."].
Proof.
  apply (@main_empty_stack_raises (Script.default_args "empty.tif") Script.empty_disk
           no_frame).
  - reflexivity.
  - reflexivity.
Defined.

(** X18: when the input path exists but does not hold a TIFF stack, the
    error of the reader leaves [main] after the first line is printed, and
    no file is created or changed. *)
Theorem main_not_a_tiff (a : Script.args) (w : Script.world) (f : Script.file) :
  Script.files w (Script.input a) = Some f ->
  (forall stack, f <> Script.Tiff stack) ->
  exists w',
    Script.main a w = (inl Script.TiffFileError, w')
    /\ Script.files w' = Script.files w
    /\ Script.stdout w'
       = Script.stdout w ++ ["Loading stack from " +++ Script.input a +++ "..."].
Proof.
  intros Hin Hf. eexists.
  unfold Script.main, Script.and_then, Script.os_path_exists, Script.load_tiff_stack,
    Script.print.
  rewrite Hin. cbn [negb Script.files Script.stdout]. rewrite Hin.
  destruct f as [stack| |]; [destruct (Hf stack); reflexivity | |];
    (split; [reflexivity|]; split; reflexivity).
Qed.

Lemma main_not_a_tiff_witness :
  exists w',
    Script.main (Script.default_args "notes.txt") Script.empty_disk
    = (inl Script.TiffFileError, w')
    /\ Script.files w' = Script.files Script.empty_disk
    /\ Script.stdout w'
       = Script.stdout Script.empty_disk
         ++ ["Loading stack from " +++ "notes.txt" +++ "..."].
Proof.
  apply (@main_not_a_tiff (Script.default_args "notes.txt") Script.empty_disk Script.Other).
  - reflexivity.
  - intros stack. discriminate.
Defined.

(** On the file system [disk], [main] with the default command line
    writes one row and prints five lines. *)
Example main_scenario_A :
  let '(r, w) := Script.main (Script.default_args "movie.tif") Script.disk in
  r = inr tt
  /\ Script.files w "events.csv"
     = Some (Script.Csv ["frame"; "y"; "x"; "intensity"] [mkEvent 2 2 2 100])
  /\ Script.stdout w
     = ["Loading stack from movie.tif...";
        "Stack shape: (3, 5, 5)";
        "Detecting insertion events (slow method)...";
        "Detected 1 events.";
        "Saved 1 events to events.csv"].
Proof. vm_compute. repeat split. Qed.

(** With no room left for the output, [main] raises after the count of
    Events is printed and leaves a file cut short. *)
Example main_no_room :
  let '(r, w) := Script.main (Script.mkArgs "movie.tif" "full/events.csv" 5 3)
                   Script.disk in
  r = inl Script.OSError
  /\ Script.files w "full/events.csv" = Some Script.Other
  /\ Script.stdout w
     = ["Loading stack from movie.tif...";
        "Stack shape: (3, 5, 5)";
        "Detecting insertion events (slow method)...";
        "Detected 1 events."].
Proof. vm_compute. repeat split. Qed.
End ScriptFacts.
